(** * Portfolio Tracker backend: invitation ledger and registration

    A shallow embedding of [backend/server.js]: the [users],
    [invitation_codes] and [plaid_items] tables, the Express middlewares
    [validateInvitation] and [authenticateToken], and the handlers for
    [/api/register], [/api/verify-invitation], [/api/admin/invitations]
    and [/api/accounts].

    Modelling conventions.
    - A timestamp is the number of milliseconds since the epoch, as a JS
      [Date] compares ([Z]).
    - A field of a JSON body, a header or a query parameter is an
      [option string]: [None] is JS [undefined].
    - A table is the list of its rows in insertion order; rows are never
      deleted by the server.
    - A handler is a function from the database (and the clock, and the
      outcome of the calls that leave the process) to the new database and
      the HTTP response.
    - [bcrypt], [jsonwebtoken], the Plaid client and the calendar
      arithmetic of JS [Date] are libraries: they are fields of the
      environment [Env], as is [process.env.ADMIN_KEY].  A library call
      that throws returns [None]; [jwt.sign] does when JWT_SECRET is not
      configured.
    - A statement sent to PostgreSQL may throw for reasons outside the
      program (lost connection); such failures are an explicit argument of
      the handler ([query_throws], [TxFault]).  ROLLBACK itself is taken to
      succeed.
    - Node's clock ([new Date()]) and the database's ([NOW()]) are distinct
      arguments.
    - Strings are sequences of one-byte characters.  The widths of [code]
      and [email] are enforced where the server stores a value it was sent
      (the creation of an invitation); a registration stores the e-mail of
      an invitation row and a bcrypt hash, which fit their columns. *)

From Stdlib Require Import List String Ascii ZArith Bool Arith Lia.
From Stdlib Require Import Sorted Permutation.
Import ListNotations.
Local Open Scope string_scope.
Local Open Scope Z_scope.

(** ** JavaScript primitives *)

Module Js.

(** [!v] is false exactly for a present non-empty string. *)
Definition truthy (v : option string) : bool :=
  match v with
  | Some s => negb (String.eqb s "")
  | None => false
  end.

(** The value of [v] when it is truthy. *)
Definition truthy_value (v : option string) : option string :=
  if truthy v then v else None.

(** [s.split(sep)] for a one-character separator. *)
Fixpoint split (sep : ascii) (s : string) : list string :=
  match s with
  | EmptyString => [EmptyString]
  | String c rest =>
      if Ascii.eqb c sep then EmptyString :: split sep rest
      else match split sep rest with
           | piece :: pieces => String c piece :: pieces
           | [] => [String c EmptyString]
           end
  end.

(** [a === b] where [a] may be undefined and [b] is a string. *)
Definition strict_eq (a : option string) (b : string) : bool :=
  match a with
  | Some s => String.eqb s b
  | None => false
  end.

(** [a !== b] on two possibly undefined strings. *)
Definition strict_neq_opt (a b : option string) : bool :=
  match a, b with
  | Some x, Some y => negb (String.eqb x y)
  | None, None => false
  | _, _ => true
  end.

(** [xs.includes(v)] on an array of strings; [v] may be null. *)
Definition includes (xs : list string) (v : option string) : bool :=
  match v with
  | Some s => existsb (String.eqb s) xs
  | None => false
  end.

End Js.

(** ** Tables ([createTables]) *)

Definition Timestamp := Z.

Record User := mkUser {
  user_id : nat;
  user_email : string;
  password_hash : string;
  user_created_at : Timestamp
}.

Record Invitation := mkInvitation {
  id : nat;
  code : string;
  email : string;
  used : bool;
  used_by : option nat;
  created_at : Timestamp;
  used_at : option Timestamp;
  expires_at : option Timestamp
}.

Record PlaidItem := mkPlaidItem {
  item_user_id : nat;
  access_token : string;
  item_id : string
}.

(** The two SERIAL sequences hold the next value they hand out. *)
Record Db := mkDb {
  users : list User;
  invitation_codes : list Invitation;
  plaid_items : list PlaidItem;
  users_id_seq : nat;
  invitation_codes_id_seq : nat
}.

Definition empty_db : Db := mkDb [] [] [] 1%nat 1%nat.

(** ** Responses *)

Record Account := mkAccount {
  account_id : string;
  account_name : string;
  subtype : option string
}.

Record ListedInvitation := mkListed {
  listed : Invitation;
  expired : bool
}.

Record Stats := mkStats {
  total : nat;
  used_count : nat;
  available : nat;
  expired_count : nat
}.

Inductive Body :=
| ErrorBody (error : string)
| InvalidBody (error : string)
| ValidBody (message : string) (emailDomain : option string)
| RegisteredBody (message : string) (token : string) (uid : nat) (uemail : string)
| CreatedBody (message : string) (invitation : Invitation)
| ListingBody (invitations : list ListedInvitation) (stats : Stats)
| AccountsBody (accounts : list Account).

Record Response := mkResponse {
  status : nat;
  body : Body
}.

(** [res.status(n).json({ error })] *)
Definition reject (n : nat) (msg : string) : Response := mkResponse n (ErrorBody msg).

(** What a middleware does: answer itself, or call [next()] having attached
    a value to the request. *)
Inductive Middleware (A : Type) :=
| Respond (r : Response)
| Next (attached : A).
Arguments Respond {A} r.
Arguments Next {A} attached.

(** ** Environment: configuration and libraries *)

Record Payload := mkPayload {
  userId : nat;
  payload_email : string
}.

Inductive JwtError := JsonWebTokenError | TokenExpiredError | NotBeforeError.

Inductive JwtVerdict :=
| Verified (user : Payload)
| Rejected (err : JwtError).

Record Env := mkEnv {
  ADMIN_KEY : option string;
  (* bcrypt.hash(password, saltRounds); None when it rejects *)
  bcrypt_hash : option string -> nat -> option string;
  (* jwt.sign(payload, process.env.JWT_SECRET, { expiresIn });
     None when it throws *)
  jwt_sign : Payload -> string -> option string;
  (* jwt.verify(token, process.env.JWT_SECRET, callback) *)
  jwt_verify : string -> JwtVerdict;
  (* plaidClient.accountsGet({ access_token }); None when it throws *)
  accountsGet : string -> option (list Account);
  (* expiresAt = new Date(); expiresAt.setDate(expiresAt.getDate() +
     expiresInDays): from the clock and the JSON text of expiresInDays to
     the instant the TIMESTAMP column later gives back; None when the Date
     is invalid or PostgreSQL refuses it *)
  date_after_days : Timestamp -> string -> option Timestamp
}.

(** ** Queries *)

Module Pg.

(** SELECT * FROM invitation_codes WHERE code = $1 *)
Definition select_invitation (db : Db) (c : string) : list Invitation :=
  filter (fun i => String.eqb (code i) c) (invitation_codes db).

(** The comparison [new Date() > new Date(invitation.expires_at)],
    guarded by [invitation.expires_at &&]. *)
Definition past_expiry (now : Timestamp) (i : Invitation) : bool :=
  match expires_at i with
  | Some e => Z.ltb e now
  | None => false
  end.

Definition email_taken (db : Db) (e : string) : bool :=
  existsb (fun u => String.eqb (user_email u) e) (users db).

Definition code_taken (db : Db) (c : string) : bool :=
  existsb (fun i => String.eqb (code i) c) (invitation_codes db).

(** The first [n] characters. *)
Fixpoint prefix (n : nat) (s : string) : string :=
  match n, s with
  | O, _ => EmptyString
  | S m, String c rest => String c (prefix m rest)
  | S _, EmptyString => EmptyString
  end.

(** What is left after the first [n] characters. *)
Fixpoint excess (n : nat) (s : string) : string :=
  match n, s with
  | O, _ => s
  | S m, String _ rest => excess m rest
  | S _, EmptyString => EmptyString
  end.

Fixpoint all_spaces (s : string) : bool :=
  match s with
  | EmptyString => true
  | String c rest => Ascii.eqb c " " && all_spaces rest
  end.

(** Storing [s] in a VARCHAR(n) column: an excess of spaces is cut off,
    any other excess is an error. *)
Definition varchar (n : nat) (s : string) : option string :=
  if all_spaces (excess n s) then Some (prefix n s) else None.

(** UPDATE invitation_codes SET used = TRUE, used_by = $1, used_at = NOW()
    WHERE id = $2, on one row. *)
Definition mark_used (uid : nat) (target : nat) (now : Timestamp)
    (i : Invitation) : Invitation :=
  if Nat.eqb (id i) target
  then mkInvitation (id i) (code i) (email i) true (Some uid)
                    (created_at i) (Some now) (expires_at i)
  else i.

End Pg.

(** ** A client connection and its transaction *)

(** What a rejected promise carries: [error.code] is the SQLSTATE for an
    error raised by PostgreSQL and undefined otherwise. *)
Inductive Exn :=
| PgError (sqlstate : string)
| OtherError.

Inductive Outcome (A : Type) :=
| Returned (a : A)
| Thrown (error : Exn).
Arguments Returned {A} a.
Arguments Thrown {A} error.

(** The tables as the client sees them, and the tables as they were at
    BEGIN while a transaction is open. *)
Record Conn := mkConn {
  store : Db;
  snapshot : option Db
}.

Definition Tx (A : Type) : Type := Conn -> Conn * Outcome A.

Definition ret {A} (a : A) : Tx A := fun c => (c, Returned a).

Definition throw {A} (e : Exn) : Tx A := fun c => (c, Thrown e).

Definition bind {A B} (m : Tx A) (k : A -> Tx B) : Tx B :=
  fun c =>
    match m c with
    | (c', Returned a) => k a c'
    | (c', Thrown e) => (c', Thrown e)
    end.

(** [try { m } catch (error) { handler error }] *)
Definition try_catch {A} (m : Tx A) (handler : Exn -> Tx A) : Tx A :=
  fun c =>
    match m c with
    | (c', Returned a) => (c', Returned a)
    | (c', Thrown e) => handler e c'
    end.

Notation "x <- m ;; k" := (bind m (fun x => k))
  (at level 61, m at next level, right associativity).
Notation "m ;;; k" := (bind m (fun _ => k))
  (at level 61, right associativity).

(** The awaited calls of the registration handler that reach the database,
    in program order; a fault plan names the one that throws for an outside
    reason, if any. *)
Inductive TxStep := AtConnect | AtBegin | AtInsert | AtUpdate | AtCommit.

Definition TxFault := option TxStep.

Definition TxStep_eqb (a b : TxStep) : bool :=
  match a, b with
  | AtConnect, AtConnect | AtBegin, AtBegin | AtInsert, AtInsert
  | AtUpdate, AtUpdate | AtCommit, AtCommit => true
  | _, _ => false
  end.

Definition strikes (fault : TxFault) (step : TxStep) : bool :=
  match fault with
  | Some s => TxStep_eqb s step
  | None => false
  end.

(** [await client.query(...)] at [step]. *)
Definition statement {A} (fault : TxFault) (step : TxStep) (run : Tx A) : Tx A :=
  fun c => if strikes fault step then (c, Thrown OtherError) else run c.

Module Client.

Definition BEGIN : Tx unit :=
  fun c =>
    match snapshot c with
    | Some _ => (c, Returned tt)
    | None => (mkConn (store c) (Some (store c)), Returned tt)
    end.

Definition COMMIT : Tx unit :=
  fun c => (mkConn (store c) None, Returned tt).

(** Rows go back to the snapshot; sequences are not transactional. *)
Definition ROLLBACK : Tx unit :=
  fun c =>
    match snapshot c with
    | Some s =>
        (mkConn (mkDb (users s) (invitation_codes s) (plaid_items s)
                      (users_id_seq (store c))
                      (invitation_codes_id_seq (store c)))
                None,
         Returned tt)
    | None => (c, Returned tt)
    end.

(** INSERT INTO users (email, password_hash, created_at)
    VALUES ($1, $2, NOW()) RETURNING id, email;
    the result is [rows[0].id].  [email] is UNIQUE. *)
Definition insert_user (e h : string) (now : Timestamp) : Tx nat :=
  fun c =>
    let db := store c in
    let uid := users_id_seq db in
    if Pg.email_taken db e
    then (mkConn (mkDb (users db) (invitation_codes db) (plaid_items db)
                       (S uid) (invitation_codes_id_seq db))
                 (snapshot c),
          Thrown (PgError "23505"))
    else (mkConn (mkDb (users db ++ [mkUser uid e h now])%list
                       (invitation_codes db) (plaid_items db)
                       (S uid) (invitation_codes_id_seq db))
                 (snapshot c),
          Returned uid).

(** UPDATE invitation_codes SET used = TRUE, used_by = $1,
    used_at = NOW() WHERE id = $2 *)
Definition update_invitation (uid target : nat) (now : Timestamp) : Tx unit :=
  fun c =>
    let db := store c in
    (mkConn (mkDb (users db)
                  (map (Pg.mark_used uid target now) (invitation_codes db))
                  (plaid_items db) (users_id_seq db)
                  (invitation_codes_id_seq db))
            (snapshot c),
     Returned tt).

End Client.

(** Run a handler on a fresh pooled client. *)
Definition on_client {A} (db : Db) (m : Tx A) : Db * Outcome A :=
  let (c, o) := m (mkConn db None) in (store c, o).

(** ** Middlewares *)

(** [validateInvitation]: on success the row is attached as
    [req.invitation]. *)
Definition validateInvitation (db : Db) (now : Timestamp) (query_throws : bool)
    (invitationCode : option string) : Middleware Invitation :=
  match Js.truthy_value invitationCode with
  | None => Respond (reject 400 "Invitation code required")
  | Some c =>
      if query_throws then Respond (reject 500 "Failed to validate invitation")
      else
        match Pg.select_invitation db c with
        | [] => Respond (reject 400 "Invalid invitation code")
        | invitation :: _ =>
            if used invitation
            then Respond (reject 400 "Invitation code already used")
            else if Pg.past_expiry now invitation
            then Respond (reject 400 "Invitation code has expired")
            else Next invitation
        end
  end.

(** [authHeader && authHeader.split(' ')[1]] *)
Definition bearer_token (authorization : option string) : option string :=
  match Js.truthy_value authorization with
  | Some authHeader => nth_error (Js.split " " authHeader) 1
  | None => None
  end.

(** [authenticateToken]: on success the decoded payload is attached as
    [req.user]. *)
Definition authenticateToken (env : Env) (authorization : option string)
    : Middleware Payload :=
  match Js.truthy_value (bearer_token authorization) with
  | None => Respond (reject 401 "Access token required")
  | Some token =>
      match jwt_verify env token with
      | Rejected _ => Respond (reject 403 "Invalid token")
      | Verified user => Next user
      end
  end.

(** [app.METHOD(path, middleware, handler)] *)
Definition guarded {A} (m : Middleware A) (handler : A -> Response) : Response :=
  match m with
  | Respond r => r
  | Next a => handler a
  end.

(** ** POST /api/register *)

(** The answers of the invitation checks, under the ledger's names. *)
Definition INVALID : Response := reject 400 "Invalid invitation code".
Definition ALREADY_USED : Response := reject 400 "Invitation code already used".
Definition EXPIRED : Response := reject 400 "Invitation code has expired".
Definition EMAIL_MISMATCH : Response := reject 400 "Email does not match invitation".
Definition EMAIL_TAKEN : Response := reject 400 "Email already registered".

Record RegisterBody := mkRegisterBody {
  body_email : option string;
  body_password : option string;
  invitationCode : option string
}.

(** The inner [try { BEGIN ... COMMIT; jwt.sign; 201 } catch { ROLLBACK;
    throw } finally { client.release() }].  [jwt.sign] runs inside the
    [try], after COMMIT: when it throws, the ROLLBACK of the [catch] finds
    no open transaction. *)
Definition register_transaction (env : Env) (fault : TxFault) (now : Timestamp)
    (e hashedPassword : string) (invitation : Invitation) : Tx Response :=
  try_catch
    (statement fault AtBegin Client.BEGIN ;;;
     uid <- statement fault AtInsert (Client.insert_user e hashedPassword now) ;;
     statement fault AtUpdate (Client.update_invitation uid (id invitation) now) ;;;
     statement fault AtCommit Client.COMMIT ;;;
     match jwt_sign env (mkPayload uid e) "7d" with
     | Some token =>
         ret (mkResponse 201 (RegisteredBody "Registration successful" token uid e))
     | None => throw OtherError
     end)
    (fun error => Client.ROLLBACK ;;; throw error).

(** The body of the outer [try], after the e-mail comparison:
    [await bcrypt.hash(password, 12)], [await pool.connect()], then the
    transaction. *)
Definition register_try (env : Env) (fault : TxFault) (now : Timestamp)
    (e : string) (password : option string) (invitation : Invitation)
    : Tx Response :=
  match bcrypt_hash env password 12 with
  | None => throw OtherError
  | Some hashedPassword =>
      statement fault AtConnect (ret tt) ;;;
      register_transaction env fault now e hashedPassword invitation
  end.

(** The outer [catch]. *)
Definition register_catch (error : Exn) : Response :=
  match error with
  | PgError sqlstate =>
      if String.eqb sqlstate "23505"
      then reject 400 "Email already registered"
      else reject 500 "Registration failed"
  | OtherError => reject 500 "Registration failed"
  end.

(** The outer [try] with its [catch], entered once the e-mail comparison
    has passed. *)
Definition register_attempt (env : Env) (db : Db) (now : Timestamp)
    (fault : TxFault) (e : string) (password : option string)
    (invitation : Invitation) : Db * Response :=
  match on_client db (register_try env fault now e password invitation) with
  | (db', Returned r) => (db', r)
  | (db', Thrown error) => (db', register_catch error)
  end.

(** [email !== req.invitation.email]: the address to register, or the
    answer to a mismatch. *)
Definition check_email (b : RegisterBody) (invitation : Invitation)
    : Middleware string :=
  match body_email b with
  | Some e =>
      if negb (String.eqb e (email invitation))
      then Respond (reject 400 "Email does not match invitation")
      else Next e
  | None => Respond (reject 400 "Email does not match invitation")
  end.

(** The handler proper, entered with [req.invitation] set. *)
Definition register_handler (env : Env) (db : Db) (now : Timestamp)
    (fault : TxFault) (b : RegisterBody) (invitation : Invitation)
    : Db * Response :=
  match check_email b invitation with
  | Respond r => (db, r)
  | Next e => register_attempt env db now fault e (body_password b) invitation
  end.

(** The route run without interruption: [now] is read by the middleware,
    [db_now] is NOW() in the transaction. *)
Definition post_register (env : Env) (db : Db) (now db_now : Timestamp)
    (query_throws : bool) (fault : TxFault) (b : RegisterBody) : Db * Response :=
  match validateInvitation db now query_throws (invitationCode b) with
  | Respond r => (db, r)
  | Next invitation => register_handler env db db_now fault b invitation
  end.

(** The invitation checks of the route, which the ledger calls
    [validateForRedemption(code, email)]: the middleware followed by the
    handler's e-mail comparison.  [None] is Ok. *)
Definition validateForRedemption (db : Db) (now : Timestamp)
    (query_throws : bool) (b : RegisterBody) : option Response :=
  match validateInvitation db now query_throws (invitationCode b) with
  | Respond r => Some r
  | Next invitation =>
      match check_email b invitation with
      | Respond r => Some r
      | Next _ => None
      end
  end.

(** ** POST /api/verify-invitation *)

Definition post_verify_invitation (db : Db) (now : Timestamp)
    (query_throws : bool) (invitationCode : option string) : Response :=
  match Js.truthy_value invitationCode with
  | None => reject 400 "Invitation code required"
  | Some c =>
      if query_throws then reject 500 "Failed to verify invitation"
      else
        match Pg.select_invitation db c with
        | [] => mkResponse 404 (InvalidBody "Invalid invitation code")
        | invitation :: _ =>
            if used invitation
            then mkResponse 409 (InvalidBody "Invitation code already used")
            else if Pg.past_expiry now invitation
            then mkResponse 410 (InvalidBody "Invitation code has expired")
            else mkResponse 200
                   (ValidBody "Invitation code is valid"
                      (nth_error (Js.split "@" (email invitation)) 1))
        end
  end.

(** ** /api/admin/invitations *)

(** ORDER BY created_at DESC (rows with equal timestamps keep their
    insertion order here; SQL leaves their order open). *)
Fixpoint insert_desc (i : Invitation) (sorted : list Invitation) : list Invitation :=
  match sorted with
  | [] => [i]
  | j :: rest =>
      if Z.ltb (created_at j) (created_at i) then i :: j :: rest
      else j :: insert_desc i rest
  end.

Definition order_by_created_at_desc (rows : list Invitation) : list Invitation :=
  fold_left (fun sorted i => insert_desc i sorted) rows [].

(** [expires_at < NOW()]; a NULL comparison is not true.  [db_now] is the
    database's NOW() as the query compares it with the column: the
    database's clock, read in the session's zone.  It is not the clock of
    [Pg.past_expiry], which is Node's. *)
Definition sql_expired (db_now : Timestamp) (i : Invitation) : bool :=
  match expires_at i with
  | Some e => Z.ltb e db_now
  | None => false
  end.

(** [used = false AND (expires_at IS NULL OR expires_at > NOW())] *)
Definition sql_available (db_now : Timestamp) (i : Invitation) : bool :=
  negb (used i) &&
  match expires_at i with
  | Some e => Z.ltb db_now e
  | None => true
  end.

Definition count (p : Invitation -> bool) (rows : list Invitation) : nat :=
  List.length (filter p rows).

Definition get_admin_invitations (env : Env) (db : Db) (db_now : Timestamp)
    (query_throws : bool) (admin_key : option string) : Response :=
  if Js.strict_neq_opt admin_key (ADMIN_KEY env) then reject 401 "Unauthorized"
  else if query_throws then reject 500 "Failed to fetch invitations"
  else
    let rows := invitation_codes db in
    mkResponse 200
      (ListingBody
         (map (fun i => mkListed i (sql_expired db_now i))
              (order_by_created_at_desc rows))
         (mkStats (List.length rows) (count used rows)
                  (count (sql_available db_now) rows)
                  (count (sql_expired db_now) rows))).

(** [expiresInDays] is kept as the JSON text of the field ("30", "2.5",
    a quoted string, ...): what [getDate() + expiresInDays] makes of it is
    JavaScript's business ([date_after_days]). *)
Record CreateBody := mkCreateBody {
  new_code : option string;
  new_email : option string;
  expiresInDays : option string
}.

Definition ms_per_day : Z := 86400000.

(** [now] is Node's clock, from which [expiresAt] is computed; [db_now] is
    NOW(), the default of [created_at].  A Date the INSERT cannot take
    fails before any row is formed; a [code] or [email] too wide for its
    column fails while the row is formed, after the id was drawn; either
    way the error is not 23505 and the answer is 500. *)
Definition post_admin_invitations (env : Env) (db : Db) (now db_now : Timestamp)
    (query_throws : bool) (x_admin_key : option string) (b : CreateBody)
    : Db * Response :=
  if Js.strict_neq_opt x_admin_key (ADMIN_KEY env)
  then (db, reject 401 "Unauthorized")
  else
    match Js.truthy_value (new_code b), Js.truthy_value (new_email b) with
    | Some c, Some e =>
        let days := match expiresInDays b with Some n => n | None => "30" end in
        if query_throws then (db, reject 500 "Failed to create invitation")
        else
          match date_after_days env now days with
          | None => (db, reject 500 "Failed to create invitation")
          | Some expiresAt =>
              let drawn := mkDb (users db) (invitation_codes db) (plaid_items db)
                                (users_id_seq db) (S (invitation_codes_id_seq db)) in
              match Pg.varchar 50 c, Pg.varchar 255 e with
              | Some stored_code, Some stored_email =>
                  let row := mkInvitation (invitation_codes_id_seq db) stored_code
                                          stored_email false None db_now None
                                          (Some expiresAt) in
                  if Pg.code_taken db stored_code
                  then (drawn, reject 400 "Invitation code already exists")
                  else (mkDb (users db) (invitation_codes db ++ [row])%list
                             (plaid_items db) (users_id_seq db)
                             (S (invitation_codes_id_seq db)),
                        mkResponse 201 (CreatedBody "Invitation code created" row))
              | _, _ => (drawn, reject 500 "Failed to create invitation")
              end
          end
    | _, _ => (db, reject 400 "Code and email are required")
    end.

(** ** GET /api/accounts *)

(** The loop over [userTokens.rows]: the first call that throws ends it. *)
Fixpoint fetch_accounts (env : Env) (tokens : list string) : option (list Account) :=
  match tokens with
  | [] => Some []
  | t :: rest =>
      match accountsGet env t with
      | None => None
      | Some accounts =>
          match fetch_accounts env rest with
          | None => None
          | Some more => Some (accounts ++ more)%list
          end
      end
  end.

Definition investment_subtypes : list string :=
  ["investment"; "brokerage"; "ira"; "401k"].

Definition accounts_handler (env : Env) (db : Db) (query_throws : bool)
    (user : Payload) : Response :=
  if query_throws then reject 500 "Failed to fetch accounts"
  else
    let userTokens :=
      filter (fun row => Nat.eqb (item_user_id row) (userId user)) (plaid_items db) in
    match fetch_accounts env (map access_token userTokens) with
    | None => reject 500 "Failed to fetch accounts"
    | Some allAccounts =>
        mkResponse 200
          (AccountsBody
             (filter (fun account => Js.includes investment_subtypes (subtype account))
                     allAccounts))
    end.

Definition get_accounts (env : Env) (db : Db) (query_throws : bool)
    (authorization : option string) : Response :=
  guarded (authenticateToken env authorization) (accounts_handler env db query_throws).

(** ** Requests in flight *)

(** Node runs one handler at a time but hands control back at each
    [await].  A registration touches the database twice: the SELECT of
    [validateInvitation], and the transaction, whose statements PostgreSQL
    isolates from other clients until COMMIT.  Between the two, other
    requests may run. *)
Inductive Phase :=
| Arrived
| Validated (e : string) (invitation : Invitation)
| Finished (r : Response).

Record Flight := mkFlight {
  request : RegisterBody;
  phase : Phase
}.

Record World := mkWorld {
  db : Db;
  flights : list Flight
}.

Inductive Event :=
| Arrive (b : RegisterBody)
| Lookup (n : nat) (now : Timestamp) (query_throws : bool)
| Transact (n : nat) (now : Timestamp) (fault : TxFault)
| AdminCreate (now db_now : Timestamp) (query_throws : bool)
              (x_admin_key : option string) (b : CreateBody)
| AdminList (now : Timestamp) (query_throws : bool) (admin_key : option string)
| VerifyInvitation (now : Timestamp) (query_throws : bool)
                   (invitationCode : option string).

(** Replace the [n]-th element. *)
Fixpoint set_nth {A} (n : nat) (x : A) (l : list A) : list A :=
  match l, n with
  | [], _ => []
  | _ :: rest, O => x :: rest
  | y :: rest, S m => y :: set_nth m x rest
  end.

(** From the SELECT to the first [await] of the handler. *)
Definition lookup_step (d : Db) (now : Timestamp) (query_throws : bool)
    (b : RegisterBody) : Phase :=
  match validateInvitation d now query_throws (invitationCode b) with
  | Respond r => Finished r
  | Next invitation =>
      match check_email b invitation with
      | Respond r => Finished r
      | Next e => Validated e invitation
      end
  end.

(** One event.  [Lookup] and [Transact] move the [n]-th request on when it
    is in the matching phase and do nothing otherwise.  The admin listing
    and verify-invitation only read: their handlers return a response and
    no database. *)
Definition step (env : Env) (w : World) (ev : Event) : World :=
  match ev with
  | Arrive b => mkWorld (db w) (flights w ++ [mkFlight b Arrived])%list
  | Lookup n now query_throws =>
      match nth_error (flights w) n with
      | Some (mkFlight b Arrived) =>
          mkWorld (db w)
            (set_nth n (mkFlight b (lookup_step (db w) now query_throws b))
                     (flights w))
      | _ => w
      end
  | Transact n now fault =>
      match nth_error (flights w) n with
      | Some (mkFlight b (Validated e invitation)) =>
          let (db', r) :=
            register_attempt env (db w) now fault e (body_password b) invitation in
          mkWorld db' (set_nth n (mkFlight b (Finished r)) (flights w))
      | _ => w
      end
  | AdminCreate now db_now query_throws key b =>
      mkWorld (fst (post_admin_invitations env (db w) now db_now query_throws key b))
              (flights w)
  | AdminList _ _ _ => w
  | VerifyInvitation _ _ _ => w
  end.

Definition run (env : Env) (w : World) (evs : list Event) : World :=
  fold_left (step env) evs w.

(** ** Vocabulary of the properties *)

(** The database after the transaction of a registration commits. *)
Definition committed (d : Db) (e h : string) (target : nat) (now : Timestamp) : Db :=
  mkDb (users d ++ [mkUser (users_id_seq d) e h now])%list
       (map (Pg.mark_used (users_id_seq d) target now) (invitation_codes d))
       (plaid_items d) (S (users_id_seq d)) (invitation_codes_id_seq d).

(** The answer to a registration that committed: 201 with the token, or
    500 when [jwt.sign] throws (the ROLLBACK of the [catch] comes after the
    COMMIT and undoes nothing). *)
Definition registered (env : Env) (uid : nat) (e : string) : Response :=
  match jwt_sign env (mkPayload uid e) "7d" with
  | Some token =>
      mkResponse 201 (RegisteredBody "Registration successful" token uid e)
  | None => reject 500 "Registration failed"
  end.

(** Two databases hold the same rows (their sequences may differ). *)
Definition same_rows (d d' : Db) : Prop :=
  users d' = users d /\
  invitation_codes d' = invitation_codes d /\
  plaid_items d' = plaid_items d.

(** The fault, if any, strikes before the INSERT has run. *)
Definition strikes_by_insert (fault : TxFault) : bool :=
  strikes fault AtConnect || strikes fault AtBegin || strikes fault AtInsert.

(** [used_by] and [used_at] are set exactly when [used] is. *)
Definition row_ok (i : Invitation) : Prop :=
  (used i = true <-> used_by i <> None) /\
  (used i = true <-> used_at i <> None).

Definition ledger_ok (d : Db) : Prop := Forall row_ok (invitation_codes d).

(** The [used] flag of the [k]-th invitation, if there is one. *)
Definition used_of (k : nat) (w : World) : option bool :=
  option_map used (nth_error (invitation_codes (db w)) k).

(** The [k]-th invitation goes from unused to used between two worlds. *)
Definition flips (k : nat) (w w' : World) : bool :=
  match used_of k w, used_of k w' with
  | Some false, Some true => true
  | _, _ => false
  end.

(** How often the [k]-th invitation goes from unused to used along a run. *)
Fixpoint flip_count (env : Env) (k : nat) (w : World) (evs : list Event) : nat :=
  match evs with
  | [] => 0
  | ev :: rest =>
      ((if flips k w (step env w ev) then 1 else 0)
       + flip_count env k (step env w ev) rest)%nat
  end.

Definition uses_code (c : string) (f : Flight) : bool :=
  Js.strict_eq (invitationCode (request f)) c.

(** The request was answered with status [s]. *)
Definition answered (s : nat) (f : Flight) : bool :=
  match phase f with
  | Finished r => Nat.eqb (status r) s
  | _ => false
  end.

(** The registrations with code [c] answered 201. *)
Definition successes (c : string) (w : World) : nat :=
  List.length (filter (fun f => uses_code c f && answered 201 f) (flights w)).

Definition finished_with (s : nat) (w : World) : nat :=
  List.length (filter (answered s) (flights w)).

Definition all_finished (w : World) : Prop :=
  Forall (fun f => exists r, phase f = Finished r) (flights w).

(** The e-mail the code [c] is bound to: that of [rows[0]]. *)
Definition bound_email (d : Db) (c : string) : option string :=
  option_map email (hd_error (Pg.select_invitation d c)).

(** The requests have all arrived and none has run yet. *)
Definition arrivals (d : Db) (bodies : list RegisterBody) : World :=
  mkWorld d (map (fun b => mkFlight b Arrived) bodies).

(** What one event may do to the rows: keep them, insert a user and
    consume the invitations with the given id, or append a fresh
    invitation. *)
Inductive ledger_move (d d' : Db) : Prop :=
| rows_kept :
    same_rows d d' -> ledger_move d d'
| rows_consumed (e h : string) (target : nat) (now : Timestamp) :
    Pg.email_taken d e = false ->
    users d' = (users d ++ [mkUser (users_id_seq d) e h now])%list ->
    invitation_codes d'
      = map (Pg.mark_used (users_id_seq d) target now) (invitation_codes d) ->
    ledger_move d d'
| row_added (row : Invitation) :
    used row = false -> used_by row = None -> used_at row = None ->
    Pg.code_taken d (code row) = false ->
    users d' = users d ->
    invitation_codes d' = (invitation_codes d ++ [row])%list ->
    ledger_move d d'.

(** The invariant behind "one code, one user": a request that has passed
    the checks with code [c] registers the e-mail [c] is bound to, and once
    a registration with [c] has succeeded that e-mail is in [users]. *)
Definition one_winner (c : string) (w : World) : Prop :=
  Forall (fun f => uses_code c f = true ->
                   forall e inv, phase f = Validated e inv ->
                                 bound_email (db w) c = Some e)
         (flights w) /\
  (successes c w <= 1)%nat /\
  ((1 <= successes c w)%nat ->
   exists e, bound_email (db w) c = Some e /\ Pg.email_taken (db w) e = true).

(** A request that would register with the code [c], bound to the e-mail
    of [i0], if it ran alone. *)
Definition contender (env : Env) (c : string) (i0 : Invitation)
    (b : RegisterBody) : Prop :=
  invitationCode b = Some c /\
  body_email b = Some (email i0) /\
  exists h, bcrypt_hash env (body_password b) 12 = Some h.

(** The steps of the racing requests: no query fails, and every lookup
    happens while [i0] is not yet past its expiry. *)
Definition quiet (i0 : Invitation) (ev : Event) : Prop :=
  match ev with
  | Lookup _ now query_throws => query_throws = false /\ Pg.past_expiry now i0 = false
  | Transact _ _ fault => fault = None
  | _ => False
  end.

(** The two stages of a race for [c]: nobody has registered yet, or one
    request has and everybody else is turned away. *)
Inductive race (env : Env) (c : string) (d : Db) (i0 : Invitation) (w : World) : Prop :=
| race_open :
    db w = d ->
    Forall (fun f => contender env c i0 (request f) /\
                     (phase f = Arrived \/ phase f = Validated (email i0) i0))
           (flights w) ->
    race env c d i0 w
| race_won (i : Invitation) :
    hd_error (Pg.select_invitation (db w) c) = Some i ->
    used i = true ->
    Pg.email_taken (db w) (email i0) = true ->
    finished_with 201 w = 1%nat ->
    Forall (fun f => contender env c i0 (request f) /\
                     (phase f = Arrived \/ phase f = Validated (email i0) i0 \/
                      exists r, phase f = Finished r /\
                                (status r = 201%nat \/ status r = 400%nat)))
           (flights w) ->
    race env c d i0 w.

(** ** Sample data *)

Definition day : Z := 86400000.

Definition sample_invitation : Invitation :=
  mkInvitation 1 "ABC123" "a@x.com" false None 0 None (Some (30 * day)).

Definition sample_db : Db := mkDb [] [sample_invitation] [] 1%nat 2%nat.

Definition linked_db : Db :=
  mkDb [mkUser 1 "a@x.com" "$2b$12$secret1" day]
       [mkInvitation 1 "ABC123" "a@x.com" true (Some 1%nat) 0 (Some day) (Some (30 * day))]
       [mkPlaidItem 1 "access-1" "item-1"; mkPlaidItem 2 "access-2" "item-2"]
       2%nat 2%nat.

(** The address of [linked_db]'s user was invited a second time. *)
Definition reinvited_db : Db :=
  mkDb (users linked_db)
       (invitation_codes linked_db ++
        [mkInvitation 2 "XYZ789" "a@x.com" false None day None (Some (31 * day))])%list
       (plaid_items linked_db) 2%nat 3%nat.

Definition reinvited_body : RegisterBody :=
  mkRegisterBody (Some "a@x.com") (Some "secret2") (Some "XYZ789").

Definition sample_body : RegisterBody :=
  mkRegisterBody (Some "a@x.com") (Some "secret1") (Some "ABC123").

Definition empty_code_body : RegisterBody :=
  mkRegisterBody (Some "a@x.com") (Some "secret1") (Some "").

Definition sample_accounts : list Account :=
  [mkAccount "acc-1" "Brokerage" (Some "brokerage");
   mkAccount "acc-2" "Checking" (Some "checking");
   mkAccount "acc-3" "Retirement" (Some "401k");
   mkAccount "acc-4" "Other" None].

Definition sample_env : Env :=
  mkEnv (Some "admin-key")
        (fun password _ =>
           match password with
           | Some p => Some ("$2b$12$" ++ p)
           | None => None
           end)
        (fun payload _ => Some ("jwt." ++ payload_email payload))
        (fun token =>
           if String.eqb token "good" then Verified (mkPayload 1 "a@x.com")
           else if String.eqb token "stale" then Rejected TokenExpiredError
           else Rejected JsonWebTokenError)
        (fun access =>
           if String.eqb access "access-1" then Some sample_accounts else None)
        (fun now days =>
           if String.eqb days "30" then Some (now + 30 * day)
           else if String.eqb days "7" then Some (now + 7 * day)
           else None).

(** The same server with JWT_SECRET not configured: [jwt.sign] throws. *)
Definition unsigned_env : Env :=
  mkEnv (ADMIN_KEY sample_env) (bcrypt_hash sample_env) (fun _ _ => None)
        (jwt_verify sample_env) (accountsGet sample_env)
        (date_after_days sample_env).

(** Two requests run interleaved: both lookups, then both transactions. *)
Definition two_racers : list Event :=
  [Lookup 0 (2 * day) false; Lookup 1 (2 * day) false;
   Transact 1 (2 * day) None; Transact 0 (2 * day) None].

Definition rival_body : RegisterBody :=
  mkRegisterBody (Some "a@x.com") (Some "secret3") (Some "ABC123").

(** Whether the character [a] occurs in [s]. *)
Fixpoint occurs (a : ascii) (s : string) : bool :=
  match s with
  | EmptyString => false
  | String c rest => Ascii.eqb c a || occurs a rest
  end.

(** ** Further routes *)

(** The libraries the routes below call: [bcrypt.compare] ([None] when it
    throws) and the Plaid client ([None] when a call throws). *)
Record Liabilities := mkLiabilities {
  credit : list string;
  mortgage : list string;
  student : list string
}.

Record Services := mkServices {
  (* bcrypt.compare(password, user.password_hash) *)
  bcrypt_compare : option string -> string -> option bool;
  (* plaidClient.itemPublicTokenExchange({ public_token }).data:
     access_token and item_id *)
  itemPublicTokenExchange : option string -> option (string * string);
  (* plaidClient.liabilitiesGet({ access_token }).data.liabilities;
     the inner None is a falsy value *)
  liabilitiesGet : string -> option (option Liabilities)
}.

(** What a route answers: an error response, or [res.json(payload)]. *)
Inductive Answer (A : Type) :=
| Failed (r : Response)
| Json (payload : A).
Arguments Failed {A} r.
Arguments Json {A} payload.

(** *** POST /api/login *)

Record LoginBody := mkLoginBody {
  login_email : option string;
  login_password : option string
}.

(** SELECT * FROM users WHERE email = $1; an undefined parameter is sent
    as NULL, which equals no e-mail. *)
Definition select_user (d : Db) (e : option string) : list User :=
  match e with
  | Some x => filter (fun u => String.eqb (user_email u) x) (users d)
  | None => []
  end.

(** The 200 body, [{ message, token, user: { id, email } }], has the shape
    of the registration's. *)
Definition post_login (env : Env) (sv : Services) (d : Db)
    (query_throws : bool) (b : LoginBody) : Response :=
  if query_throws then reject 500 "Login failed"
  else
    match select_user d (login_email b) with
    | [] => reject 401 "Invalid credentials"
    | user :: _ =>
        match bcrypt_compare sv (login_password b) (password_hash user) with
        | None => reject 500 "Login failed"
        | Some false => reject 401 "Invalid credentials"
        | Some true =>
            match jwt_sign env (mkPayload (user_id user) (user_email user)) "7d" with
            | Some token =>
                mkResponse 200
                  (RegisteredBody "Login successful" token
                     (user_id user) (user_email user))
            | None => reject 500 "Login failed"
            end
        end
    end.

(** *** POST /api/exchange_public_token *)

(** INSERT INTO plaid_items (user_id, access_token, item_id);
    [user_id] REFERENCES users(id). *)
Definition insert_plaid_item (d : Db) (row : PlaidItem) : option Db :=
  if existsb (fun u => Nat.eqb (user_id u) (item_user_id row)) (users d)
  then Some (mkDb (users d) (invitation_codes d) (plaid_items d ++ [row])%list
                  (users_id_seq d) (invitation_codes_id_seq d))
  else None.

Definition exchange_handler (sv : Services) (d : Db) (query_throws : bool)
    (public_token : option string) (user : Payload) : Db * Answer bool :=
  match itemPublicTokenExchange sv public_token with
  | None => (d, Failed (reject 500 "Failed to link account"))
  | Some (accessToken, itemId) =>
      if query_throws then (d, Failed (reject 500 "Failed to link account"))
      else
        match insert_plaid_item d (mkPlaidItem (userId user) accessToken itemId) with
        | Some d' => (d', Json true)
        | None => (d, Failed (reject 500 "Failed to link account"))
        end
  end.

Definition post_exchange_public_token (env : Env) (sv : Services) (d : Db)
    (query_throws : bool) (authorization : option string)
    (public_token : option string) : Db * Answer bool :=
  match authenticateToken env authorization with
  | Respond r => (d, Failed r)
  | Next user => exchange_handler sv d query_throws public_token user
  end.

(** *** GET /api/liabilities *)

(** The loop: [if (response.data.liabilities) allLiabilities.push(...)]. *)
Fixpoint fetch_liabilities (sv : Services) (tokens : list string)
    : option (list Liabilities) :=
  match tokens with
  | [] => Some []
  | t :: rest =>
      match liabilitiesGet sv t with
      | None => None
      | Some found =>
          match fetch_liabilities sv rest with
          | None => None
          | Some more =>
              Some (match found with
                    | Some l => l :: more
                    | None => more
                    end)
          end
      end
  end.

(** SELECT access_token FROM plaid_items WHERE user_id = $1 *)
Definition user_tokens (d : Db) (uid : nat) : list string :=
  map access_token
      (filter (fun row => Nat.eqb (item_user_id row) uid) (plaid_items d)).

Definition liabilities_handler (sv : Services) (d : Db) (query_throws : bool)
    (user : Payload) : Answer (list Liabilities) :=
  if query_throws then Failed (reject 500 "Failed to fetch liabilities")
  else
    match fetch_liabilities sv (user_tokens d (userId user)) with
    | None => Failed (reject 500 "Failed to fetch liabilities")
    | Some allLiabilities => Json allLiabilities
    end.

Definition get_liabilities (env : Env) (sv : Services) (d : Db)
    (query_throws : bool) (authorization : option string)
    : Answer (list Liabilities) :=
  match authenticateToken env authorization with
  | Respond r => Failed r
  | Next user => liabilities_handler sv d query_throws user
  end.

(** ** Vocabulary of the further properties *)

(** [expires_at] is exactly the instant [now]. *)
Definition expires_now (now : Timestamp) (i : Invitation) : bool :=
  match expires_at i with
  | Some e => Z.eqb e now
  | None => false
  end.

(** Newest first. *)
Definition newer_first (a b : ListedInvitation) : Prop :=
  created_at (listed b) <= created_at (listed a).

(** The UNIQUE columns hold distinct values and every id was handed out by
    its sequence. *)
Definition keys_ok (d : Db) : Prop :=
  NoDup (map code (invitation_codes d)) /\
  NoDup (map user_email (users d)) /\
  NoDup (map id (invitation_codes d)) /\
  NoDup (map user_id (users d)) /\
  Forall (fun i => (id i < invitation_codes_id_seq d)%nat) (invitation_codes d) /\
  Forall (fun u => (user_id u < users_id_seq d)%nat) (users d).

(** A used invitation points to the user registered with its e-mail. *)
Definition redeemed_by_owner (d : Db) : Prop :=
  forall i, In i (invitation_codes d) -> used i = true ->
    exists u, In u (users d) /\ used_by i = Some (user_id u) /\
              user_email u = email i.

(** Every user came in through an invitation bound to their e-mail. *)
Definition invitation_only (d : Db) : Prop :=
  forall u, In u (users d) ->
    exists i, In i (invitation_codes d) /\ used i = true /\
              used_by i = Some (user_id u) /\ email i = user_email u.

(** A request past the checks holds a row that is in the table. *)
Definition flights_grounded (w : World) : Prop :=
  forall f e inv, In f (flights w) -> phase f = Validated e inv ->
    exists i, In i (invitation_codes (db w)) /\ id i = id inv /\ email i = e.

Definition sound (w : World) : Prop :=
  keys_ok (db w) /\ redeemed_by_owner (db w) /\ invitation_only (db w) /\
  flights_grounded w.

(** ** More sample data *)

Definition sample_services : Services :=
  mkServices
    (fun password h =>
       match password with
       | Some p => Some (String.eqb ("$2b$12$" ++ p) h)
       | None => None
       end)
    (fun public_token =>
       match public_token with
       | Some t => Some ("access-" ++ t, "item-" ++ t)
       | None => None
       end)
    (fun access =>
       if String.eqb access "access-1"
       then Some (Some (mkLiabilities ["acc-9"] [] []))
       else if String.eqb access "access-2" then Some None
       else None).

Definition sample_create : CreateBody :=
  mkCreateBody (Some "ABC123") (Some "a@x.com") None.

(** * Properties *)

(** ** Invitation checks *)

Lemma truthy_value_nonempty (c : string) :
  c <> "" -> Js.truthy_value (Some c) = Some c.
Proof.
  intros Hc. unfold Js.truthy_value, Js.truthy.
  destruct (String.eqb_spec c ""); [contradiction | reflexivity].
Qed.

Lemma truthy_value_some (v : option string) (c : string) :
  Js.truthy_value v = Some c -> v = Some c /\ c <> "".
Proof.
  unfold Js.truthy_value, Js.truthy. destruct v as [s|]; [|discriminate].
  destruct (String.eqb_spec s ""); simpl; [discriminate|].
  intros H; inversion H; subst. split; [reflexivity | assumption].
Qed.

Lemma check_email_next b invitation e :
  check_email b invitation = Next e <->
  body_email b = Some e /\ e = email invitation.
Proof.
  unfold check_email. destruct (body_email b) as [x|].
  - destruct (String.eqb_spec x (email invitation)); simpl; split.
    + intros H; inversion H; subst. auto.
    + intros [H ?]; inversion H; subst. reflexivity.
    + discriminate.
    + intros [H ?]; inversion H; subst. contradiction.
  - split; [discriminate | intros [H _]; discriminate].
Qed.

Lemma validateInvitation_next d now q v inv :
  validateInvitation d now q v = Next inv ->
  exists c, v = Some c /\ c <> "" /\ q = false /\
            hd_error (Pg.select_invitation d c) = Some inv /\
            used inv = false /\ Pg.past_expiry now inv = false.
Proof.
  unfold validateInvitation.
  destruct (Js.truthy_value v) as [c|] eqn:Hv; [|discriminate].
  apply truthy_value_some in Hv as [-> Hc].
  destruct q; [discriminate|].
  destruct (Pg.select_invitation d c) as [|i rest] eqn:Hsel; [discriminate|].
  destruct (used i) eqn:Hu; [discriminate|].
  destruct (Pg.past_expiry now i) eqn:He; [discriminate|].
  intros H. inversion H; subst. exists c. rewrite Hsel. repeat split; auto.
Qed.

Lemma validateInvitation_respond d now q v r :
  validateInvitation d now q v = Respond r -> status r = 400%nat \/ status r = 500%nat.
Proof.
  unfold validateInvitation.
  destruct (Js.truthy_value v) as [c|]; [|intros H; inversion H; auto].
  destruct q; [intros H; inversion H; auto|].
  destruct (Pg.select_invitation d c) as [|i rest]; [intros H; inversion H; auto|].
  destruct (used i); [intros H; inversion H; auto|].
  destruct (Pg.past_expiry now i); intros H; inversion H; auto.
Qed.

Lemma check_email_respond b inv r :
  check_email b inv = Respond r -> r = EMAIL_MISMATCH.
Proof.
  unfold check_email. destruct (body_email b) as [e|];
    [destruct (negb (String.eqb e (email inv)))|]; intros H; inversion H; reflexivity.
Qed.

(** The SELECT finds nothing exactly when no row carries the code, and
    what it finds first is a row with that code. *)
Lemma select_invitation_nil d c :
  Pg.select_invitation d c = [] <->
  forall i, In i (invitation_codes d) -> code i <> c.
Proof.
  unfold Pg.select_invitation. split.
  - intros Hnil i Hi Hc.
    assert (Hin : In i (filter (fun j => String.eqb (code j) c) (invitation_codes d))).
    { apply filter_In. split; [exact Hi|]. apply String.eqb_eq. exact Hc. }
    rewrite Hnil in Hin. contradiction.
  - intros Hall.
    destruct (filter _ (invitation_codes d)) as [|i rest] eqn:Hf; [reflexivity|].
    assert (Hin : In i (filter (fun j => String.eqb (code j) c) (invitation_codes d)))
      by (rewrite Hf; left; reflexivity).
    apply filter_In in Hin as [Hi Hc]. apply String.eqb_eq in Hc.
    destruct (Hall i Hi Hc).
Qed.

Lemma select_invitation_head d c i rest :
  Pg.select_invitation d c = i :: rest ->
  In i (invitation_codes d) /\ code i = c.
Proof.
  unfold Pg.select_invitation. intros Hf.
  assert (Hin : In i (filter (fun j => String.eqb (code j) c) (invitation_codes d)))
    by (rewrite Hf; left; reflexivity).
  apply filter_In in Hin as [Hi Hc]. apply String.eqb_eq in Hc. auto.
Qed.

(** The route is the invitation checks followed by the attempt proper. *)
Lemma post_register_checks_first env d now db_now q fault b :
  match validateForRedemption d now q b with
  | Some r => post_register env d now db_now q fault b = (d, r)
  | None =>
      exists invitation,
        validateInvitation d now q (invitationCode b) = Next invitation /\
        body_email b = Some (email invitation) /\
        post_register env d now db_now q fault b
          = register_attempt env d db_now fault (email invitation)
              (body_password b) invitation
  end.
Proof.
  unfold post_register, validateForRedemption, register_handler.
  destruct (validateInvitation d now q (invitationCode b)) as [r|i]; [reflexivity|].
  destruct (check_email b i) as [r|e] eqn:Hce; [reflexivity|].
  apply check_email_next in Hce as [Hbe ->]. exists i. auto.
Qed.

(** C3, empty code: the guard [!invitationCode] answers before any lookup,
    so a code that matches no row is not always reported as INVALID. *)
Lemma empty_code_is_not_reported_invalid :
  Pg.select_invitation empty_db "" = [] /\
  validateForRedemption empty_db 0 false empty_code_body
    = Some (reject 400 "Invitation code required") /\
  validateForRedemption empty_db 0 false empty_code_body <> Some INVALID.
Proof.
  split; [reflexivity|]. split; [reflexivity|].
  vm_compute. discriminate.
Qed.

(** C3 (amended): for a non-empty code the checks answer in the order
    not found, used, past expiry, e-mail mismatch, and pass otherwise. *)
Theorem validateForRedemption_precedence d now b c :
  invitationCode b = Some c -> c <> "" ->
  (Pg.select_invitation d c = [] ->
     validateForRedemption d now false b = Some INVALID) /\
  (forall i rest, Pg.select_invitation d c = i :: rest ->
     (used i = true ->
        validateForRedemption d now false b = Some ALREADY_USED) /\
     (used i = false -> forall t, expires_at i = Some t -> t < now ->
        validateForRedemption d now false b = Some EXPIRED) /\
     (used i = false -> Pg.past_expiry now i = false ->
        body_email b <> Some (email i) ->
        validateForRedemption d now false b = Some EMAIL_MISMATCH) /\
     (used i = false -> Pg.past_expiry now i = false ->
        body_email b = Some (email i) ->
        validateForRedemption d now false b = None)).
Proof.
  intros Hb Hc.
  unfold validateForRedemption, validateInvitation.
  rewrite Hb, (truthy_value_nonempty c Hc).
  split.
  - intros ->. reflexivity.
  - intros i rest ->. repeat split.
    + intros ->. reflexivity.
    + intros -> t Ht Hlt. unfold Pg.past_expiry. rewrite Ht.
      apply Z.ltb_lt in Hlt. rewrite Hlt. reflexivity.
    + intros -> -> Hne. unfold check_email.
      destruct (body_email b) as [e|]; [|reflexivity].
      destruct (String.eqb_spec e (email i)); [subst; congruence | reflexivity].
    + intros -> -> He. unfold check_email. rewrite He, String.eqb_refl. reflexivity.
Qed.

Lemma validateForRedemption_precedence_witness :
  validateForRedemption sample_db (31 * day) false
    (mkRegisterBody (Some "b@y.com") (Some "secret1") (Some "ABC123"))
  = Some EXPIRED.
Proof.
  refine (proj1 (proj2 (proj2
            (validateForRedemption_precedence sample_db (31 * day)
               (mkRegisterBody (Some "b@y.com") (Some "secret1") (Some "ABC123"))
               "ABC123" eq_refl _)
            sample_invitation [] eq_refl)) eq_refl (30 * day) eq_refl _).
  - discriminate.
  - reflexivity.
Defined.

(** ** Expiry boundary *)

(** C6, the instant of expiry: both checks let the invitation through. *)
Lemma expiry_instant_is_not_expired :
  expires_at sample_invitation = Some (30 * day) /\
  validateInvitation sample_db (30 * day) false (Some "ABC123") = Next sample_invitation /\
  status (post_verify_invitation sample_db (30 * day) false (Some "ABC123")) = 200%nat.
Proof. repeat split. Qed.

(** C6 (amended): both checks report expiry exactly when the clock is
    strictly past [expires_at]; at the instant itself the invitation is
    still accepted. *)
Theorem expiry_boundary_is_exclusive d now c i rest t :
  c <> "" -> Pg.select_invitation d c = i :: rest ->
  used i = false -> expires_at i = Some t ->
  (validateInvitation d now false (Some c) = Respond EXPIRED <-> t < now) /\
  (post_verify_invitation d now false (Some c)
     = mkResponse 410 (InvalidBody "Invitation code has expired") <-> t < now) /\
  (t = now ->
     validateInvitation d now false (Some c) = Next i /\
     status (post_verify_invitation d now false (Some c)) = 200%nat).
Proof.
  intros Hc Hsel Hu Ht.
  unfold validateInvitation, post_verify_invitation.
  rewrite (truthy_value_nonempty c Hc), Hsel, Hu.
  unfold Pg.past_expiry. rewrite Ht.
  destruct (Z.ltb_spec t now) as [Hlt|Hge].
  - repeat split; try reflexivity; intros; lia.
  - repeat split; try reflexivity; try discriminate; intros; lia.
Qed.

Lemma expiry_boundary_is_exclusive_witness :
  (validateInvitation sample_db (30 * day) false (Some "ABC123") = Respond EXPIRED
     <-> 30 * day < 30 * day) /\
  (post_verify_invitation sample_db (30 * day) false (Some "ABC123")
     = mkResponse 410 (InvalidBody "Invitation code has expired")
     <-> 30 * day < 30 * day) /\
  (30 * day = 30 * day ->
     validateInvitation sample_db (30 * day) false (Some "ABC123") = Next sample_invitation /\
     status (post_verify_invitation sample_db (30 * day) false (Some "ABC123")) = 200%nat).
Proof.
  refine (expiry_boundary_is_exclusive sample_db (30 * day) "ABC123"
            sample_invitation [] (30 * day) _ eq_refl eq_refl eq_refl).
  discriminate.
Defined.

(** ** POST /api/verify-invitation *)

Lemma split_without_separator sep s :
  occurs sep s = false -> Js.split sep s = [s].
Proof.
  induction s as [|ch s IH]; simpl; [reflexivity|].
  intros H. apply orb_false_iff in H as [Hch Hs].
  rewrite Hch, (IH Hs). reflexivity.
Qed.

Lemma split_at_first_separator sep l r :
  occurs sep l = false ->
  Js.split sep (l ++ String sep r) = l :: Js.split sep r.
Proof.
  induction l as [|ch l IH]; simpl.
  - intros _. rewrite Ascii.eqb_refl. reflexivity.
  - intros H. apply orb_false_iff in H as [Hch Hl].
    rewrite Hch, (IH Hl). reflexivity.
Qed.

(** C9, empty code: the answer is 400, not 404. *)
Lemma verify_invitation_empty_code_is_400 :
  Pg.select_invitation empty_db "" = [] /\
  post_verify_invitation empty_db 0 false (Some "")
    = reject 400 "Invitation code required" /\
  status (post_verify_invitation empty_db 0 false (Some "")) <> 404%nat.
Proof. repeat split. vm_compute. discriminate. Qed.

(** C9 (amended): for a non-empty code the endpoint answers 404 when no
    row matches, 409 when the row is used, 410 when it is past expiry, in
    that order, and otherwise 200 with [emailDomain] the second piece of
    the bound e-mail split at "@", which is the domain of an address
    [local@domain]. *)
Theorem verify_invitation_statuses d now c :
  c <> "" ->
  (Pg.select_invitation d c = [] ->
     post_verify_invitation d now false (Some c)
       = mkResponse 404 (InvalidBody "Invalid invitation code")) /\
  (forall i rest, Pg.select_invitation d c = i :: rest ->
     (used i = true ->
        post_verify_invitation d now false (Some c)
          = mkResponse 409 (InvalidBody "Invitation code already used")) /\
     (used i = false -> Pg.past_expiry now i = true ->
        post_verify_invitation d now false (Some c)
          = mkResponse 410 (InvalidBody "Invitation code has expired")) /\
     (used i = false -> Pg.past_expiry now i = false ->
        post_verify_invitation d now false (Some c)
          = mkResponse 200
              (ValidBody "Invitation code is valid"
                 (nth_error (Js.split "@" (email i)) 1))) /\
     (forall l dom, email i = l ++ "@" ++ dom ->
        occurs "@" l = false -> occurs "@" dom = false ->
        nth_error (Js.split "@" (email i)) 1 = Some dom)).
Proof.
  intros Hc. unfold post_verify_invitation.
  rewrite (truthy_value_nonempty c Hc). split.
  - intros ->. reflexivity.
  - intros i rest ->. repeat split.
    + intros ->. reflexivity.
    + intros -> ->. reflexivity.
    + intros -> ->. reflexivity.
    + intros l dom -> Hl Hdom. simpl.
      rewrite (split_at_first_separator _ l dom Hl).
      rewrite (split_without_separator _ dom Hdom). reflexivity.
Qed.

Lemma verify_invitation_statuses_witness :
  post_verify_invitation sample_db (31 * day) false (Some "ABC123")
    = mkResponse 410 (InvalidBody "Invitation code has expired") /\
  post_verify_invitation sample_db day false (Some "ABC123")
    = mkResponse 200 (ValidBody "Invitation code is valid" (Some "x.com")).
Proof.
  assert (Hc : "ABC123" <> "") by discriminate.
  split.
  - exact (proj1 (proj2 (proj2 (verify_invitation_statuses sample_db (31 * day) "ABC123" Hc)
                           sample_invitation [] eq_refl)) eq_refl eq_refl).
  - pose proof (proj2 (verify_invitation_statuses sample_db day "ABC123" Hc)
                  sample_invitation [] eq_refl) as (_ & _ & H200 & Hdom).
    rewrite (H200 eq_refl eq_refl).
    rewrite (Hdom "a" "x.com" eq_refl eq_refl eq_refl). reflexivity.
Defined.

(** ** Bearer tokens *)

(** C8, a token that [jwt.verify] reports as expired is answered 403. *)
Lemma expired_token_is_answered_403 :
  bearer_token (Some "Bearer stale") = Some "stale" /\
  jwt_verify sample_env "stale" = Rejected TokenExpiredError /\
  authenticateToken sample_env (Some "Bearer stale")
    = Respond (reject 403 "Invalid token") /\
  status (guarded (authenticateToken sample_env (Some "Bearer stale"))
                  (accounts_handler sample_env sample_db false)) <> 401%nat.
Proof. repeat split. vm_compute. discriminate. Qed.

(** C8 (amended): a request without a token is answered 401, a request
    whose token [jwt.verify] rejects (malformed, badly signed or expired
    alike) is answered 403; in both cases the protected handler does not
    run. *)
Theorem authenticateToken_rejections env authorization (handler : Payload -> Response) :
  (Js.truthy_value (bearer_token authorization) = None ->
     guarded (authenticateToken env authorization) handler
       = reject 401 "Access token required") /\
  (forall token err,
     Js.truthy_value (bearer_token authorization) = Some token ->
     jwt_verify env token = Rejected err ->
     guarded (authenticateToken env authorization) handler
       = reject 403 "Invalid token").
Proof.
  unfold authenticateToken. split.
  - intros ->. reflexivity.
  - intros token err -> ->. reflexivity.
Qed.

Lemma authenticateToken_rejections_witness :
  guarded (authenticateToken sample_env None) (accounts_handler sample_env sample_db false)
    = reject 401 "Access token required" /\
  guarded (authenticateToken sample_env (Some "Bearer not.a.jwt"))
          (accounts_handler sample_env sample_db false)
    = reject 403 "Invalid token" /\
  guarded (authenticateToken sample_env (Some "Bearer stale"))
          (accounts_handler sample_env sample_db false)
    = reject 403 "Invalid token".
Proof.
  split; [|split].
  - exact (proj1 (authenticateToken_rejections sample_env None _) eq_refl).
  - exact (proj2 (authenticateToken_rejections sample_env (Some "Bearer not.a.jwt") _)
             "not.a.jwt" JsonWebTokenError eq_refl eq_refl).
  - exact (proj2 (authenticateToken_rejections sample_env (Some "Bearer stale") _)
             "stale" TokenExpiredError eq_refl eq_refl).
Defined.

(** ** GET /api/accounts *)

Lemma includes_investment_subtypes (v : option string) :
  Js.includes investment_subtypes v = true <->
  v = Some "investment" \/ v = Some "brokerage" \/ v = Some "ira" \/ v = Some "401k".
Proof.
  unfold Js.includes, investment_subtypes. destruct v as [s|]; simpl.
  - repeat rewrite orb_true_iff. repeat rewrite String.eqb_eq.
    split.
    + intros [H|[H|[H|[H|H]]]]; subst; auto. discriminate.
    + intros [H|[H|[H|H]]]; inversion H; auto.
  - split; [discriminate|]. intros [H|[H|[H|H]]]; discriminate.
Qed.

(** C10: on an authenticated request, the accounts answered are exactly
    the fetched accounts whose subtype is 'investment', 'brokerage', 'ira'
    or '401k'. *)
Theorem accounts_are_investment_accounts env d q authorization user accounts :
  authenticateToken env authorization = Next user ->
  get_accounts env d q authorization = mkResponse 200 (AccountsBody accounts) ->
  (forall a, In a accounts ->
     subtype a = Some "investment" \/ subtype a = Some "brokerage" \/
     subtype a = Some "ira" \/ subtype a = Some "401k") /\
  exists fetched,
    fetch_accounts env
      (map access_token
         (filter (fun row => Nat.eqb (item_user_id row) (userId user)) (plaid_items d)))
      = Some fetched /\
    forall a, In a accounts <->
      In a fetched /\
      (subtype a = Some "investment" \/ subtype a = Some "brokerage" \/
       subtype a = Some "ira" \/ subtype a = Some "401k").
Proof.
  intros Hauth. unfold get_accounts. rewrite Hauth. simpl.
  unfold accounts_handler. destruct q; [discriminate|].
  destruct (fetch_accounts env _) as [fetched|]; [|discriminate].
  intros H. inversion H; subst accounts; clear H. split.
  - intros a Ha. apply filter_In in Ha as [_ Ha].
    apply includes_investment_subtypes. exact Ha.
  - exists fetched. split; [reflexivity|].
    intros a. rewrite filter_In, includes_investment_subtypes. reflexivity.
Qed.

Lemma accounts_are_investment_accounts_witness :
  get_accounts sample_env linked_db false (Some "Bearer good")
    = mkResponse 200
        (AccountsBody [mkAccount "acc-1" "Brokerage" (Some "brokerage");
                       mkAccount "acc-3" "Retirement" (Some "401k")]) /\
  (subtype (mkAccount "acc-3" "Retirement" (Some "401k")) = Some "investment" \/
   subtype (mkAccount "acc-3" "Retirement" (Some "401k")) = Some "brokerage" \/
   subtype (mkAccount "acc-3" "Retirement" (Some "401k")) = Some "ira" \/
   subtype (mkAccount "acc-3" "Retirement" (Some "401k")) = Some "401k").
Proof.
  split; [reflexivity|].
  exact (proj1 (accounts_are_investment_accounts sample_env linked_db false
                  (Some "Bearer good") (mkPayload 1 "a@x.com") _ eq_refl eq_refl)
           (mkAccount "acc-3" "Retirement" (Some "401k"))
           (or_intror (or_introl eq_refl))).
Defined.

(** ** The registration transaction *)

Lemma same_rows_refl d : same_rows d d.
Proof. repeat split. Qed.

(** A registration attempt either commits the new user together with the
    consumed invitation, or leaves every row as it was. *)
Lemma register_attempt_outcome env d now fault e pw inv :
  (exists h,
      bcrypt_hash env pw 12 = Some h /\ fault = None /\
      Pg.email_taken d e = false /\
      register_attempt env d now fault e pw inv
        = (committed d e h (id inv) now, registered env (users_id_seq d) e)) \/
  (exists d',
      same_rows d d' /\
      (register_attempt env d now fault e pw inv = (d', EMAIL_TAKEN) \/
       register_attempt env d now fault e pw inv
         = (d', reject 500 "Registration failed"))).
Proof.
  unfold register_attempt, on_client, register_try.
  destruct (bcrypt_hash env pw 12) as [h|].
  2:{ right. exists d. split; [apply same_rows_refl|]. right. reflexivity. }
  unfold register_transaction, try_catch, bind, statement, strikes,
    Client.BEGIN, Client.COMMIT, Client.ROLLBACK, Client.insert_user,
    Client.update_invitation, ret, throw.
  destruct fault as [[]|]; cbn.
  - right. exists d. split; [apply same_rows_refl|]. right. reflexivity.
  - right. exists d. split; [apply same_rows_refl|]. right. reflexivity.
  - right. eexists. split; [|right; reflexivity]. repeat split.
  - destruct (Pg.email_taken d e); cbn; right; eexists;
      (split; [|first [left; reflexivity | right; reflexivity]]); repeat split.
  - destruct (Pg.email_taken d e); cbn; right; eexists;
      (split; [|first [left; reflexivity | right; reflexivity]]); repeat split.
  - destruct (Pg.email_taken d e) eqn:Htaken; cbn.
    + right. eexists. split; [|left; reflexivity]. repeat split.
    + left. exists h. split; [reflexivity|]. split; [reflexivity|].
      split; [reflexivity|]. unfold registered.
      destruct (jwt_sign env (mkPayload (users_id_seq d) e) "7d"); reflexivity.
Qed.

Lemma register_attempt_conflict env d now fault e pw inv h :
  bcrypt_hash env pw 12 = Some h ->
  strikes_by_insert fault = false ->
  Pg.email_taken d e = true ->
  exists d', same_rows d d' /\
    register_attempt env d now fault e pw inv = (d', EMAIL_TAKEN).
Proof.
  intros Hh Hf Ht.
  unfold register_attempt, on_client, register_try. rewrite Hh.
  unfold register_transaction, try_catch, bind, statement,
    Client.BEGIN, Client.COMMIT, Client.ROLLBACK, Client.insert_user,
    Client.update_invitation, ret, throw.
  destruct fault as [[]|]; try discriminate Hf; cbn; rewrite Ht; cbn;
    eexists; (split; [|reflexivity]); repeat split.
Qed.

Lemma registered_status env uid e :
  (status (registered env uid e) = 201%nat <->
   exists token, jwt_sign env (mkPayload uid e) "7d" = Some token) /\
  (status (registered env uid e) <> 201%nat ->
   jwt_sign env (mkPayload uid e) "7d" = None /\
   registered env uid e = reject 500 "Registration failed").
Proof.
  unfold registered. destruct (jwt_sign env (mkPayload uid e) "7d") as [token|]; simpl.
  - split; [split; [intros _; exists token; reflexivity | reflexivity]|].
    intros H. exfalso. apply H. reflexivity.
  - split; [split; [discriminate | intros [token H]; discriminate H]|]. auto.
Qed.

(** C2: a registration that passed the invitation checks and then fails
    before COMMIT (a failed statement, a failed INSERT or UPDATE in
    particular, an e-mail conflict, a rejected password) leaves the [users]
    and [invitation_codes] rows exactly as they were.  The one answer other
    than 201 after which the rows differ is not a failure before COMMIT: it
    is the 500 given when every statement went through and [jwt.sign] threw
    after the COMMIT. *)
Theorem failed_registration_rolls_back env d now db_now q fault b invitation d' r :
  validateInvitation d now q (invitationCode b) = Next invitation ->
  fault <> Some AtCommit ->
  post_register env d now db_now q fault b = (d', r) ->
  (fault = Some AtInsert \/ fault = Some AtUpdate \/
   (exists e, body_email b = Some e /\ Pg.email_taken d e = true) ->
   status r <> 201%nat) /\
  (status r <> 201%nat ->
   (users d' = users d /\ invitation_codes d' = invitation_codes d) \/
   (fault = None /\ Pg.email_taken d (email invitation) = false /\
    jwt_sign env (mkPayload (users_id_seq d) (email invitation)) "7d" = None)).
Proof.
  intros Hv _ Hrun. unfold post_register in Hrun. rewrite Hv in Hrun.
  unfold register_handler in Hrun.
  destruct (check_email b invitation) as [r0|e] eqn:Hce.
  - inversion Hrun; subst. split.
    + intros _. unfold check_email in Hce.
      destruct (body_email b); [destruct (negb _)|]; inversion Hce; subst;
        simpl; discriminate.
    + intros _. left. split; reflexivity.
  - apply check_email_next in Hce as [Hbe He].
    destruct (register_attempt_outcome env d db_now fault e (body_password b) invitation)
      as [(h & Hh & Hf & Ht & Hok) | (d1 & (Hu & Hi & _) & [Hr|Hr])].
    + rewrite Hok in Hrun. inversion Hrun; subst. split.
      * intros [Hx|[Hx|(e' & He' & Hx)]]; try discriminate.
        rewrite Hbe in He'. inversion He'; subst. congruence.
      * intros Hs. right. split; [reflexivity|]. split; [exact Ht|].
        apply registered_status. exact Hs.
    + rewrite Hr in Hrun. inversion Hrun; subst. split.
      * intros _. simpl. discriminate.
      * intros _. left. split; assumption.
    + rewrite Hr in Hrun. inversion Hrun; subst. split.
      * intros _. simpl. discriminate.
      * intros _. left. split; assumption.
Qed.

Lemma failed_registration_rolls_back_witness :
  status (snd (post_register sample_env sample_db day (2 * day) false
                 (Some AtUpdate) sample_body)) <> 201%nat /\
  users (fst (post_register sample_env sample_db day (2 * day) false
                (Some AtUpdate) sample_body)) = users sample_db /\
  invitation_codes (fst (post_register sample_env sample_db day (2 * day) false
                           (Some AtUpdate) sample_body))
    = invitation_codes sample_db.
Proof.
  assert (Hf : Some AtUpdate <> Some AtCommit) by discriminate.
  destruct (failed_registration_rolls_back sample_env sample_db day (2 * day) false
              (Some AtUpdate) sample_body sample_invitation _ _
              eq_refl Hf eq_refl) as [Hfails Hsame].
  split.
  - apply Hfails. right. left. reflexivity.
  - destruct Hsame as [Hrows | (Hnone & _)].
    + apply Hfails. right. left. reflexivity.
    + exact Hrows.
    + discriminate Hnone.
Defined.

(** C7: a registration whose e-mail already has a user is never answered
    201 and changes no row of [users] or [invitation_codes]; when it gets
    as far as the INSERT, the unique-email conflict makes the route answer
    400 "Email already registered". *)
Theorem email_conflict_aborts env d now db_now q fault b :
  (forall e d' r,
     body_email b = Some e -> Pg.email_taken d e = true ->
     post_register env d now db_now q fault b = (d', r) ->
     status r <> 201%nat /\
     users d' = users d /\ invitation_codes d' = invitation_codes d) /\
  (forall invitation h,
     validateInvitation d now q (invitationCode b) = Next invitation ->
     body_email b = Some (email invitation) ->
     bcrypt_hash env (body_password b) 12 = Some h ->
     strikes_by_insert fault = false ->
     Pg.email_taken d (email invitation) = true ->
     exists d',
       post_register env d now db_now q fault b
         = (d', mkResponse 400 (ErrorBody "Email already registered")) /\
       users d' = users d /\ invitation_codes d' = invitation_codes d).
Proof.
  split.
  - intros e d' r Hbe Ht. unfold post_register.
    destruct (validateInvitation d now q (invitationCode b)) as [r0|inv] eqn:Hv.
    + intros H; inversion H; subst.
      apply validateInvitation_respond in Hv as [-> | ->];
        repeat split; discriminate.
    + unfold register_handler.
      destruct (check_email b inv) as [r0|e'] eqn:Hce.
      * intros H; inversion H; subst. apply check_email_respond in Hce. subst.
        repeat split; discriminate.
      * apply check_email_next in Hce as [Hbe' _].
        rewrite Hbe in Hbe'. injection Hbe' as <-.
        destruct (register_attempt_outcome env d db_now fault e (body_password b) inv)
          as [(h & _ & _ & Hfree & _) | (d1 & (Hu & Hi & _) & [Hr|Hr])].
        -- congruence.
        -- rewrite Hr. intros H; inversion H; subst.
           repeat split; try assumption; discriminate.
        -- rewrite Hr. intros H; inversion H; subst.
           repeat split; try assumption; discriminate.
  - intros invitation h Hv Hbe Hh Hf Ht.
    unfold post_register. rewrite Hv. unfold register_handler.
    assert (Hce : check_email b invitation = Next (email invitation))
      by (apply check_email_next; auto).
    rewrite Hce.
    destruct (register_attempt_conflict env d db_now fault (email invitation)
                (body_password b) invitation h Hh Hf Ht) as (d1 & (Hu & Hi & _) & Hr).
    exists d1. rewrite Hr. repeat split; assumption.
Qed.

Lemma email_conflict_aborts_witness :
  exists d',
    post_register sample_env reinvited_db (2 * day) (2 * day) false None reinvited_body
      = (d', mkResponse 400 (ErrorBody "Email already registered")) /\
    users d' = users reinvited_db /\
    invitation_codes d' = invitation_codes reinvited_db.
Proof.
  exact (proj2 (email_conflict_aborts sample_env reinvited_db (2 * day) (2 * day) false
                  None reinvited_body)
           (mkInvitation 2 "XYZ789" "a@x.com" false None day None (Some (31 * day)))
           "$2b$12$secret2" eq_refl eq_refl eq_refl eq_refl eq_refl).
Defined.

(** ** Lists updated in place *)

Lemma length_set_nth {A} n (x : A) l : List.length (set_nth n x l) = List.length l.
Proof.
  revert n. induction l as [|y l IH]; intros [|n]; simpl; auto.
Qed.

Lemma nth_error_set_nth_same {A} n (x y : A) l :
  nth_error l n = Some y -> nth_error (set_nth n x l) n = Some x.
Proof.
  revert n. induction l as [|z l IH]; intros [|n]; simpl; try discriminate; auto.
Qed.

Lemma nth_error_set_nth_other {A} n m (x : A) l :
  m <> n -> nth_error (set_nth n x l) m = nth_error l m.
Proof.
  revert n m. induction l as [|z l IH]; intros [|n] [|m] H; simpl; auto.
  contradiction.
Qed.

Lemma Forall_set_nth {A} (P : A -> Prop) n x l :
  Forall P l -> P x -> Forall P (set_nth n x l).
Proof.
  intros Hl Hx. revert n.
  induction Hl as [|y l Hy Hl IH]; intros [|n]; simpl; auto.
Qed.

Lemma count_set_nth {A} (p : A -> bool) n x y l :
  nth_error l n = Some y ->
  (List.length (filter p (set_nth n x l)) + (if p y then 1 else 0)
   = List.length (filter p l) + (if p x then 1 else 0))%nat.
Proof.
  revert n. induction l as [|z l IH]; intros [|n] H; simpl in *; try discriminate.
  - inversion H; subst. destruct (p x), (p y); simpl; lia.
  - specialize (IH n H). destruct (p z); simpl; lia.
Qed.

(** ** How events move the ledger *)

Lemma register_attempt_moves env d now fault e pw inv :
  ledger_move d (fst (register_attempt env d now fault e pw inv)).
Proof.
  destruct (register_attempt_outcome env d now fault e pw inv)
    as [(h & _ & _ & Ht & Hok) | (d1 & Hsame & [Hr|Hr])]; rewrite ?Hok, ?Hr; simpl.
  - eapply rows_consumed; [exact Ht | reflexivity | reflexivity].
  - apply rows_kept, Hsame.
  - apply rows_kept, Hsame.
Qed.

(** The creation either keeps every row, or appends one unused row whose
    code was free and answers 201 with it. *)
Lemma post_admin_invitations_effect env d now db_now q key b :
  (same_rows d (fst (post_admin_invitations env d now db_now q key b)) /\
   users_id_seq (fst (post_admin_invitations env d now db_now q key b)) = users_id_seq d /\
   (invitation_codes_id_seq d
    <= invitation_codes_id_seq (fst (post_admin_invitations env d now db_now q key b)))%nat /\
   status (snd (post_admin_invitations env d now db_now q key b)) <> 201%nat) \/
  (exists c e expiresAt stored_code stored_email,
     key = ADMIN_KEY env /\ q = false /\
     Js.truthy_value (new_code b) = Some c /\
     Js.truthy_value (new_email b) = Some e /\
     date_after_days env now
       (match expiresInDays b with Some n => n | None => "30" end) = Some expiresAt /\
     Pg.varchar 50 c = Some stored_code /\ Pg.varchar 255 e = Some stored_email /\
     Pg.code_taken d stored_code = false /\
     post_admin_invitations env d now db_now q key b
     = (mkDb (users d)
             (invitation_codes d ++
              [mkInvitation (invitation_codes_id_seq d) stored_code stored_email false
                            None db_now None (Some expiresAt)])%list
             (plaid_items d) (users_id_seq d) (S (invitation_codes_id_seq d)),
        mkResponse 201
          (CreatedBody "Invitation code created"
             (mkInvitation (invitation_codes_id_seq d) stored_code stored_email false
                           None db_now None (Some expiresAt))))).
Proof.
  unfold post_admin_invitations.
  destruct (Js.strict_neq_opt key (ADMIN_KEY env)) eqn:Hk.
  { left. simpl. repeat split; try lia; discriminate. }
  assert (Hkey : key = ADMIN_KEY env).
  { unfold Js.strict_neq_opt in Hk. destruct key as [x|], (ADMIN_KEY env) as [y|];
      try discriminate; [|reflexivity].
    apply negb_false_iff, String.eqb_eq in Hk. congruence. }
  destruct (Js.truthy_value (new_code b)) as [c|];
    [|left; simpl; repeat split; try lia; discriminate].
  destruct (Js.truthy_value (new_email b)) as [e|];
    [|left; simpl; repeat split; try lia; discriminate].
  destruct q; [left; simpl; repeat split; try lia; discriminate|].
  destruct (date_after_days env now _) as [expiresAt|] eqn:Hdate;
    [|left; simpl; repeat split; try lia; discriminate].
  destruct (Pg.varchar 50 c) as [stored_code|] eqn:Hc;
    [|left; simpl; repeat split; try lia; discriminate].
  destruct (Pg.varchar 255 e) as [stored_email|] eqn:He;
    [|left; simpl; repeat split; try lia; discriminate].
  destruct (Pg.code_taken d stored_code) eqn:Ht.
  - left. simpl. repeat split; try lia; discriminate.
  - right. exists c, e, expiresAt, stored_code, stored_email. repeat split; auto.
Qed.

Lemma post_admin_invitations_moves env d now db_now q key b :
  ledger_move d (fst (post_admin_invitations env d now db_now q key b)).
Proof.
  destruct (post_admin_invitations_effect env d now db_now q key b)
    as [(Hsame & _) | (c & e & x & sc & se & _ & _ & _ & _ & _ & _ & _ & Ht & ->)].
  - apply rows_kept, Hsame.
  - simpl. eapply (row_added _ _ (mkInvitation _ sc se false None db_now None (Some x)));
      try reflexivity.
    exact Ht.
Qed.

Lemma step_moves env w ev : ledger_move (db w) (db (step env w ev)).
Proof.
  destruct ev as [b|n now q|n now fault|now db_now q key b|now q key|now q c]; simpl;
    try (apply rows_kept, same_rows_refl).
  - destruct (nth_error (flights w) n) as [[b []]|]; apply rows_kept, same_rows_refl.
  - destruct (nth_error (flights w) n) as [[b [|e inv|r]]|];
      try (apply rows_kept, same_rows_refl).
    pose proof (register_attempt_moves env (db w) now fault e (body_password b) inv) as H.
    destruct (register_attempt env (db w) now fault e (body_password b) inv) as [d' r].
    exact H.
  - apply post_admin_invitations_moves.
Qed.

Lemma mark_used_row_ok uid target now i :
  row_ok i -> row_ok (Pg.mark_used uid target now i).
Proof.
  intros Hi. unfold Pg.mark_used. destruct (Nat.eqb (id i) target); [|exact Hi].
  split; simpl; split; intros; [discriminate | reflexivity | discriminate | reflexivity].
Qed.

Lemma ledger_move_ok d d' : ledger_move d d' -> ledger_ok d -> ledger_ok d'.
Proof.
  unfold ledger_ok.
  intros [(_ & Hi & _) | e h target now _ _ Hi | row Hu Hb Ha _ _ Hi] Hok; rewrite Hi.
  - exact Hok.
  - apply Forall_map. eapply Forall_impl; [|exact Hok].
    intros i. apply mark_used_row_ok.
  - apply Forall_app. split; [exact Hok|]. constructor; [|constructor].
    split; rewrite Hu; [rewrite Hb | rewrite Ha]; split; congruence.
Qed.

(** A row keeps its place, and a used row stays used. *)
Lemma ledger_move_used d d' k i :
  ledger_move d d' ->
  nth_error (invitation_codes d) k = Some i ->
  exists i', nth_error (invitation_codes d') k = Some i' /\
             (used i = true -> used i' = true).
Proof.
  intros [(_ & Hi & _) | e h target now _ _ Hi | row _ _ _ _ _ Hi] Hk; rewrite Hi.
  - exists i. auto.
  - rewrite nth_error_map, Hk. simpl. eexists. split; [reflexivity|].
    unfold Pg.mark_used. destruct (Nat.eqb (id i) target); auto.
  - exists i. split; [|auto]. rewrite nth_error_app1; [exact Hk|].
    apply nth_error_Some. congruence.
Qed.

Lemma used_of_stays_true env w ev k :
  used_of k w = Some true -> used_of k (step env w ev) = Some true.
Proof.
  unfold used_of. intros H.
  destruct (nth_error (invitation_codes (db w)) k) as [i|] eqn:Hk; [|discriminate].
  simpl in H. injection H as Hu.
  destruct (ledger_move_used _ _ k i (step_moves env w ev) Hk) as (i' & Hk' & Hmono).
  rewrite Hk'. simpl. rewrite (Hmono Hu). reflexivity.
Qed.

Lemma flip_count_after_used env k evs :
  forall w, used_of k w = Some true -> flip_count env k w evs = 0%nat.
Proof.
  induction evs as [|ev rest IH]; intros w Hu; simpl; [reflexivity|].
  rewrite (IH _ (used_of_stays_true env w ev k Hu)).
  unfold flips. rewrite Hu. reflexivity.
Qed.

Lemma flip_count_le_1 env k evs :
  forall w, (flip_count env k w evs <= 1)%nat.
Proof.
  induction evs as [|ev rest IH]; intros w; simpl; [lia|].
  destruct (flips k w (step env w ev)) eqn:Hf.
  - unfold flips in Hf.
    destruct (used_of k w) as [[]|]; try discriminate.
    destruct (used_of k (step env w ev)) as [[]|] eqn:Hu; try discriminate.
    rewrite (flip_count_after_used env k rest _ Hu). lia.
  - specialize (IH (step env w ev)). lia.
Qed.

(** Only the transaction of a registration that commits changes a row;
    the request is then answered [registered]: 201, or 500 when [jwt.sign]
    throws after the COMMIT. *)
Lemma rows_change_only_on_commit env w ev :
  invitation_codes (db (step env w ev)) = invitation_codes (db w) \/
  (exists row, invitation_codes (db (step env w ev))
               = (invitation_codes (db w) ++ [row])%list) \/
  (exists n now fault b e,
      ev = Transact n now fault /\
      nth_error (flights (step env w ev)) n
      = Some (mkFlight b (Finished (registered env (users_id_seq (db w)) e))) /\
      Pg.email_taken (db w) e = false).
Proof.
  destruct ev as [b|n now q|n now fault|now db_now q key b|now q key|now q c]; simpl; auto.
  - destruct (nth_error (flights w) n) as [[b []]|]; auto.
  - destruct (nth_error (flights w) n) as [[b [|e inv|r]]|] eqn:Hn; auto.
    destruct (register_attempt_outcome env (db w) now fault e (body_password b) inv)
      as [(h & _ & _ & Ht & Hok) | (d1 & (_ & Hi & _) & [Hr|Hr])]; rewrite ?Hok, ?Hr; simpl; auto.
    right. right. exists n, now, fault, b, e.
    split; [reflexivity|]. split; [|exact Ht].
    eapply nth_error_set_nth_same. exact Hn.
  - destruct (post_admin_invitations_effect env (db w) now db_now q key b)
      as [((_ & Hi & _) & _) | (c & e & x & sc & se & _ & _ & _ & _ & _ & _ & _ & _ & ->)].
    + left. exact Hi.
    + right. left. eexists. reflexivity.
Qed.

Lemma post_register_moves env d now db_now q fault b :
  ledger_move d (fst (post_register env d now db_now q fault b)).
Proof.
  unfold post_register, register_handler.
  destruct (validateInvitation d now q (invitationCode b)) as [r|inv];
    [apply rows_kept, same_rows_refl|].
  destruct (check_email b inv) as [r|e]; [apply rows_kept, same_rows_refl|].
  apply register_attempt_moves.
Qed.

Lemma created_invitation_is_fresh env d now db_now q key b d' msg row :
  post_admin_invitations env d now db_now q key b = (d', mkResponse 201 (CreatedBody msg row)) ->
  used row = false /\ used_by row = None /\ used_at row = None /\
  invitation_codes d' = (invitation_codes d ++ [row])%list.
Proof.
  intros H.
  destruct (post_admin_invitations_effect env d now db_now q key b)
    as [(_ & _ & _ & Hs) | (c & e & x & sc & se & _ & _ & _ & _ & _ & _ & _ & _ & Heq)].
  - rewrite H in Hs. exfalso. apply Hs. reflexivity.
  - rewrite Heq in H. inversion H; subst. repeat split.
Qed.

Lemma run_app env w evs1 evs2 :
  run env w (evs1 ++ evs2) = run env (run env w evs1) evs2.
Proof. apply fold_left_app. Qed.

Lemma run_preserves_ledger_ok env evs :
  forall w, ledger_ok (db w) -> ledger_ok (db (run env w evs)).
Proof.
  induction evs as [|ev rest IH]; intros w Hw; simpl; [exact Hw|].
  apply IH. eapply ledger_move_ok; [apply step_moves | exact Hw].
Qed.

Lemma flip_needs_commit env w ev k :
  flips k w (step env w ev) = true ->
  exists n now fault b e,
    ev = Transact n now fault /\
    nth_error (flights (step env w ev)) n
    = Some (mkFlight b (Finished (registered env (users_id_seq (db w)) e))) /\
    Pg.email_taken (db w) e = false.
Proof.
  unfold flips, used_of. intros Hf.
  destruct (rows_change_only_on_commit env w ev) as [Hsame | [(row & Happ) | Hok]].
  - rewrite Hsame in Hf.
    destruct (nth_error (invitation_codes (db w)) k) as [i|]; simpl in Hf;
      [destruct (used i)|]; discriminate.
  - rewrite Happ in Hf.
    destruct (nth_error (invitation_codes (db w)) k) as [i|] eqn:Hk; simpl in Hf;
      [|discriminate].
    rewrite nth_error_app1 in Hf by (apply nth_error_Some; congruence).
    rewrite Hk in Hf. simpl in Hf. destruct (used i); discriminate.
  - exact Hok.
Qed.

(** X19, what holds of the ledger: [used_by] and [used_at] are set exactly
    when [used] is, in a freshly created code and after every operation,
    hence in every reachable state; [used] goes from false to true at most
    once along any run, and only in the transaction of a registration that
    commits a new user.  That request is answered [registered]: 201 when
    [jwt.sign] returns, 500 when it throws. *)
Theorem invitation_ledger_invariant env :
  (forall d now db_now q key b d' msg row,
     post_admin_invitations env d now db_now q key b
       = (d', mkResponse 201 (CreatedBody msg row)) ->
     used row = false /\ used_by row = None /\ used_at row = None /\
     invitation_codes d' = (invitation_codes d ++ [row])%list) /\
  (forall d now db_now q key b,
     ledger_ok d -> ledger_ok (fst (post_admin_invitations env d now db_now q key b))) /\
  (forall d now db_now q fault b,
     ledger_ok d -> ledger_ok (fst (post_register env d now db_now q fault b))) /\
  (forall w ev, ledger_ok (db w) -> ledger_ok (db (step env w ev))) /\
  (forall evs, ledger_ok (db (run env (mkWorld empty_db []) evs))) /\
  (forall w ev k,
     flips k w (step env w ev) = true ->
     exists n now fault b e,
       ev = Transact n now fault /\
       nth_error (flights (step env w ev)) n
       = Some (mkFlight b (Finished (registered env (users_id_seq (db w)) e))) /\
       Pg.email_taken (db w) e = false) /\
  (forall w evs k, (flip_count env k w evs <= 1)%nat).
Proof.
  split; [|split; [|split; [|split; [|split; [|split]]]]].
  - intros. eapply created_invitation_is_fresh; eassumption.
  - intros d now db_now q key b. apply ledger_move_ok, post_admin_invitations_moves.
  - intros d now db_now q fault b. apply ledger_move_ok, post_register_moves.
  - intros w ev. apply ledger_move_ok, step_moves.
  - intros evs. apply run_preserves_ledger_ok. constructor.
  - intros w ev k. apply flip_needs_commit.
  - intros w evs k. apply flip_count_le_1.
Qed.

Lemma invitation_ledger_invariant_witness :
  ledger_ok (db (step sample_env
                   (step sample_env (arrivals sample_db [sample_body]) (Lookup 0 day false))
                   (Transact 0 (2 * day) None))) /\
  exists n now fault b e,
    Transact 0 (2 * day) None = Transact n now fault /\
    nth_error
      (flights (step sample_env
                  (step sample_env (arrivals sample_db [sample_body]) (Lookup 0 day false))
                  (Transact 0 (2 * day) None))) n
      = Some (mkFlight b (Finished (registered sample_env 1 e))) /\
    Pg.email_taken sample_db e = false.
Proof.
  destruct (invitation_ledger_invariant sample_env)
    as (_ & _ & _ & Hstep & _ & Hflip & _).
  split.
  - apply Hstep. apply Hstep. constructor; [|constructor].
    split; split; simpl; congruence.
  - apply (Hflip (step sample_env (arrivals sample_db [sample_body]) (Lookup 0 day false))
             _ 0%nat). reflexivity.
Defined.

(** C1, the defect: with JWT_SECRET not configured, a registration that
    passes every check commits (the user row is there, the invitation is
    used, with [used_by] and [used_at] set) and is then answered 500
    "Registration failed", because [jwt.sign] throws after the COMMIT and
    the ROLLBACK of the [catch] undoes nothing.  So [used] goes from false
    to true in a registration that is reported as failed. *)
Theorem consumed_by_a_registration_answered_500 :
  jwt_sign unsigned_env (mkPayload 1 "a@x.com") "7d" = None /\
  validateForRedemption sample_db day false sample_body = None /\
  map used (invitation_codes sample_db) = [false] /\
  snd (post_register unsigned_env sample_db day (2 * day) false None sample_body)
    = reject 500 "Registration failed" /\
  invitation_codes
    (fst (post_register unsigned_env sample_db day (2 * day) false None sample_body))
    = [mkInvitation 1 "ABC123" "a@x.com" true (Some 1%nat) 0 (Some (2 * day))
         (Some (30 * day))] /\
  users (fst (post_register unsigned_env sample_db day (2 * day) false None sample_body))
    = [mkUser 1 "a@x.com" "$2b$12$secret1" (2 * day)].
Proof. repeat split. Qed.

(** Run alone, a request goes through the route [post_register]. *)
Lemma sequential_run_is_post_register env d now db_now q fault b :
  run env (arrivals d [b]) [Lookup 0 now q; Transact 0 db_now fault]
  = mkWorld (fst (post_register env d now db_now q fault b))
            [mkFlight b (Finished (snd (post_register env d now db_now q fault b)))].
Proof.
  unfold run, arrivals, post_register, register_handler. simpl.
  unfold lookup_step.
  destruct (validateInvitation d now q (invitationCode b)) as [r|inv]; [reflexivity|].
  destruct (check_email b inv) as [r|e]; [reflexivity|]. simpl.
  destruct (register_attempt env d db_now fault e (body_password b) inv); reflexivity.
Qed.

(** ** One code, one user *)

Lemma mark_used_code uid target now i : code (Pg.mark_used uid target now i) = code i.
Proof. unfold Pg.mark_used. destruct (Nat.eqb (id i) target); reflexivity. Qed.

Lemma mark_used_email uid target now i : email (Pg.mark_used uid target now i) = email i.
Proof. unfold Pg.mark_used. destruct (Nat.eqb (id i) target); reflexivity. Qed.

Lemma filter_code_mark_used uid target now c rows :
  filter (fun i => String.eqb (code i) c) (map (Pg.mark_used uid target now) rows)
  = map (Pg.mark_used uid target now) (filter (fun i => String.eqb (code i) c) rows).
Proof.
  induction rows as [|i rows IH]; simpl; [reflexivity|].
  rewrite mark_used_code. destruct (String.eqb (code i) c); simpl; rewrite IH; reflexivity.
Qed.

Lemma ledger_move_bound d d' c e :
  ledger_move d d' -> bound_email d c = Some e -> bound_email d' c = Some e.
Proof.
  unfold bound_email, Pg.select_invitation.
  intros [(_ & Hi & _) | x h target now _ _ Hi | row _ _ _ _ _ Hi]; rewrite Hi.
  - auto.
  - rewrite filter_code_mark_used.
    destruct (filter _ (invitation_codes d)) as [|i rest]; simpl; [discriminate|].
    rewrite mark_used_email. auto.
  - rewrite filter_app.
    destruct (filter _ (invitation_codes d)) as [|i rest]; simpl; [discriminate|auto].
Qed.

Lemma ledger_move_taken d d' e :
  ledger_move d d' -> Pg.email_taken d e = true -> Pg.email_taken d' e = true.
Proof.
  unfold Pg.email_taken.
  intros [(Hu & _ & _) | x h target now _ Hu _ | row _ _ _ _ Hu _]; rewrite Hu; auto.
  rewrite existsb_app. intros ->. reflexivity.
Qed.

Lemma lookup_step_validated d now q b e inv :
  lookup_step d now q b = Validated e inv ->
  exists c, invitationCode b = Some c /\ c <> "" /\ q = false /\
            hd_error (Pg.select_invitation d c) = Some inv /\
            used inv = false /\ Pg.past_expiry now inv = false /\
            body_email b = Some e /\ e = email inv.
Proof.
  unfold lookup_step.
  destruct (validateInvitation d now q (invitationCode b)) as [r|i] eqn:Hv; [discriminate|].
  destruct (check_email b i) as [r|x] eqn:Hce; [discriminate|].
  intros H. inversion H; subst.
  apply validateInvitation_next in Hv as (c & Hc & Hne & Hq & Hhd & Hu & Hx).
  apply check_email_next in Hce as [Hbe He].
  exists c. repeat split; auto.
Qed.

Lemma lookup_step_finished d now q b r :
  lookup_step d now q b = Finished r -> status r = 400%nat \/ status r = 500%nat.
Proof.
  unfold lookup_step.
  destruct (validateInvitation d now q (invitationCode b)) as [r0|i] eqn:Hv.
  - intros H. inversion H; subst. eapply validateInvitation_respond; eassumption.
  - destruct (check_email b i) as [r0|x] eqn:Hce; [|discriminate].
    intros H. inversion H; subst. apply check_email_respond in Hce. subst. auto.
Qed.

Lemma uses_code_eq c f :
  uses_code c f = true <-> invitationCode (request f) = Some c.
Proof.
  unfold uses_code, Js.strict_eq. destruct (invitationCode (request f)) as [x|].
  - rewrite String.eqb_eq. split; [intros ->; reflexivity | intros H; inversion H; reflexivity].
  - split; discriminate.
Qed.

Lemma one_winner_move c d d' fl :
  ledger_move d d' -> one_winner c (mkWorld d fl) -> one_winner c (mkWorld d' fl).
Proof.
  intros Hm (H1 & H2 & H3). unfold one_winner, successes in *. simpl in *.
  split; [|split].
  - eapply Forall_impl; [|exact H1]. intros f Hf Hc e inv Hp.
    eapply ledger_move_bound; eauto.
  - exact H2.
  - intros Hs. destruct (H3 Hs) as (e & Hb & Ht). exists e. split.
    + eapply ledger_move_bound; eauto.
    + eapply ledger_move_taken; eauto.
Qed.

(** A flight that was not yet answered moves on without winning. *)
Lemma one_winner_set_loser c d fl n f f' :
  nth_error fl n = Some f -> answered 201 f = false -> answered 201 f' = false ->
  (uses_code c f' = true -> forall e inv, phase f' = Validated e inv ->
                                          bound_email d c = Some e) ->
  one_winner c (mkWorld d fl) -> one_winner c (mkWorld d (set_nth n f' fl)).
Proof.
  intros Hn Hf Hf' Hnew (H1 & H2 & H3). unfold one_winner, successes in *. simpl in *.
  pose proof (count_set_nth (fun f => uses_code c f && answered 201 f) n f' f fl Hn) as Hc.
  cbv beta in Hc. rewrite Hf, Hf', !andb_false_r in Hc.
  split; [|split].
  - apply Forall_set_nth; assumption.
  - lia.
  - intros Hs. apply H3. lia.
Qed.

(** A flight wins: its e-mail was free and is the one its code is bound to. *)
Lemma one_winner_set_winner c d fl n b e inv r :
  nth_error fl n = Some (mkFlight b (Validated e inv)) ->
  (uses_code c (mkFlight b (Finished r)) = true ->
   successes c (mkWorld d fl) = 0%nat /\ Pg.email_taken d e = true) ->
  one_winner c (mkWorld d fl) ->
  one_winner c (mkWorld d (set_nth n (mkFlight b (Finished r)) fl)).
Proof.
  intros Hn Hwin (H1 & H2 & H3). unfold one_winner, successes in *. simpl in *.
  pose proof (count_set_nth (fun f => uses_code c f && answered 201 f) n
                (mkFlight b (Finished r)) _ fl Hn) as Hc.
  cbv beta in Hc.
  replace (answered 201 (mkFlight b (Validated e inv))) with false in Hc by reflexivity.
  rewrite andb_false_r in Hc.
  assert (Hb : uses_code c (mkFlight b (Finished r)) = true -> bound_email d c = Some e).
  { intros Hu. rewrite Forall_forall in H1.
    apply (H1 _ (nth_error_In _ _ Hn) Hu e inv eq_refl). }
  split; [|split].
  - apply Forall_set_nth; [exact H1|]. intros _ e0 inv0 Hp. discriminate Hp.
  - destruct (uses_code c (mkFlight b (Finished r))) eqn:Hu; simpl in Hc.
    + destruct (Hwin eq_refl) as [H0 _].
      destruct (answered 201 (mkFlight b (Finished r))); lia.
    + lia.
  - intros Hs.
    destruct (uses_code c (mkFlight b (Finished r))) eqn:Hu; simpl in Hc.
    + exists e. split; [apply Hb; reflexivity | apply (Hwin eq_refl)].
    + apply H3. lia.
Qed.

Lemma step_one_winner env c w ev :
  one_winner c w -> one_winner c (step env w ev).
Proof.
  destruct w as [d fl]. intros Hw.
  destruct ev as [b|n now q|n now fault|now db_now q key b|now q key|now q x]; simpl;
    try exact Hw.
  - destruct Hw as (H1 & H2 & H3). unfold one_winner, successes in *. simpl in *.
    rewrite filter_app, length_app. simpl.
    replace (answered 201 (mkFlight b Arrived)) with false by reflexivity.
    rewrite andb_false_r. simpl. rewrite Nat.add_0_r.
    split; [|split; assumption].
    apply Forall_app. split; [exact H1|]. constructor; [|constructor].
    intros _ e inv Hp. discriminate Hp.
  - destruct (nth_error fl n) as [[b [|e inv|r]]|] eqn:Hn; try exact Hw.
    eapply one_winner_set_loser; [exact Hn | reflexivity | | | exact Hw].
    + unfold answered. simpl.
      destruct (lookup_step d now q b) as [|e inv|r] eqn:Hl; try reflexivity.
      apply lookup_step_finished in Hl as [-> | ->]; reflexivity.
    + intros Hu e inv Hp. simpl in Hp.
      apply lookup_step_validated in Hp
        as (c' & Hc' & _ & _ & Hhd & _ & _ & _ & He).
      apply uses_code_eq in Hu. simpl in Hu. rewrite Hc' in Hu. inversion Hu; subst.
      unfold bound_email. rewrite Hhd. reflexivity.
  - destruct (nth_error fl n) as [[b [|e inv|r]]|] eqn:Hn; try exact Hw.
    pose proof (register_attempt_moves env d now fault e (body_password b) inv) as Hm.
    destruct (register_attempt_outcome env d now fault e (body_password b) inv)
      as [(h & _ & _ & Ht & Hok) | (d1 & Hsame & [Hr|Hr])];
      rewrite ?Hok, ?Hr in *; simpl in Hm.
    + apply one_winner_set_winner with (e := e) (inv := inv); [exact Hn | |].
      * intros Hu. split.
        -- destruct Hw as (H1 & H2 & H3). unfold successes in *. simpl in *.
           destruct (List.length _) as [|k] eqn:Hs; [reflexivity|].
           destruct H3 as (e0 & Hb0 & Ht0); [lia|].
           rewrite Forall_forall in H1.
           pose proof (H1 _ (nth_error_In _ _ Hn) Hu e inv eq_refl) as Hb.
           rewrite Hb in Hb0. inversion Hb0; subst. congruence.
        -- unfold Pg.email_taken, committed. simpl. rewrite existsb_app. simpl.
           rewrite String.eqb_refl. apply orb_true_r.
      * eapply one_winner_move; [exact Hm | exact Hw].
    + eapply one_winner_set_loser with (f := mkFlight b (Validated e inv));
        [exact Hn | reflexivity | reflexivity | | ].
      * intros _ e0 inv0 Hp. discriminate Hp.
      * eapply one_winner_move; [exact Hm | exact Hw].
    + eapply one_winner_set_loser with (f := mkFlight b (Validated e inv));
        [exact Hn | reflexivity | reflexivity | | ].
      * intros _ e0 inv0 Hp. discriminate Hp.
      * eapply one_winner_move; [exact Hm | exact Hw].
  - eapply one_winner_move; [apply post_admin_invitations_moves | exact Hw].
Qed.

Lemma arrivals_one_winner c d bodies : one_winner c (arrivals d bodies).
Proof.
  unfold one_winner, successes, arrivals. simpl.
  assert (H0 : List.length
                 (filter (fun f => uses_code c f && answered 201 f)
                         (map (fun b => mkFlight b Arrived) bodies)) = 0%nat).
  { induction bodies as [|b bodies IH]; simpl; [reflexivity|].
    replace (answered 201 (mkFlight b Arrived)) with false by reflexivity.
    rewrite andb_false_r. exact IH. }
  rewrite H0. split; [|split; [lia | intros; lia]].
  apply Forall_forall. intros f Hf _ e inv Hp.
  apply in_map_iff in Hf as (b & <- & _). discriminate Hp.
Qed.

Lemma run_one_winner env c evs :
  forall w, one_winner c w -> one_winner c (run env w evs).
Proof.
  induction evs as [|ev rest IH]; intros w Hw; simpl; [exact Hw|].
  apply IH, step_one_winner, Hw.
Qed.

(** Whatever the requests, the events and their order, at most one
    registration with a given code is answered 201. *)
Lemma at_most_one_success env d bodies evs c :
  (successes c (run env (arrivals d bodies) evs) <= 1)%nat.
Proof.
  apply (run_one_winner env c evs _ (arrivals_one_winner c d bodies)).
Qed.

(** ** The race for one code *)

Lemma register_attempt_commits env d now e pw inv h :
  bcrypt_hash env pw 12 = Some h ->
  Pg.email_taken d e = false ->
  register_attempt env d now None e pw inv
  = (committed d e h (id inv) now, registered env (users_id_seq d) e).
Proof.
  intros Hh Ht.
  unfold register_attempt, on_client, register_try. rewrite Hh.
  unfold register_transaction, try_catch, bind, statement,
    Client.BEGIN, Client.COMMIT, Client.ROLLBACK, Client.insert_user,
    Client.update_invitation, ret, throw, registered.
  cbn. rewrite Ht.
  destruct (jwt_sign env (mkPayload (users_id_seq d) e) "7d"); reflexivity.
Qed.

Lemma finished_with_set_nth s d d' fl n f f' :
  nth_error fl n = Some f -> answered s f = false ->
  finished_with s (mkWorld d' (set_nth n f' fl))
  = (finished_with s (mkWorld d fl) + (if answered s f' then 1 else 0))%nat.
Proof.
  intros Hn Hf. unfold finished_with. simpl.
  pose proof (count_set_nth (answered s) n f' f fl Hn) as Hc.
  rewrite Hf in Hc. lia.
Qed.

Section Race.

Variables (env : Env) (c : string) (d : Db) (i0 : Invitation).
Hypothesis code_present : c <> "".
Hypothesis code_bound : hd_error (Pg.select_invitation d c) = Some i0.
Hypothesis code_unused : used i0 = false.
Hypothesis email_free : Pg.email_taken d (email i0) = false.
(* [jwt.sign] returns for the user the first commit creates *)
Hypothesis token_signed :
  exists token, jwt_sign env (mkPayload (users_id_seq d) (email i0)) "7d" = Some token.

Lemma lookup_step_open now b :
  contender env c i0 b -> Pg.past_expiry now i0 = false ->
  lookup_step d now false b = Validated (email i0) i0.
Proof.
  intros (Hc & He & _) Hx. unfold lookup_step, validateInvitation.
  rewrite Hc, (truthy_value_nonempty c code_present).
  destruct (Pg.select_invitation d c) as [|i rest]; [discriminate code_bound|].
  simpl in code_bound. injection code_bound as ->.
  rewrite code_unused, Hx. unfold check_email. rewrite He, String.eqb_refl.
  reflexivity.
Qed.

Lemma lookup_step_closed d' now b i :
  contender env c i0 b ->
  hd_error (Pg.select_invitation d' c) = Some i -> used i = true ->
  lookup_step d' now false b = Finished ALREADY_USED.
Proof.
  intros (Hc & _ & _) Hhd Hu. unfold lookup_step, validateInvitation.
  rewrite Hc, (truthy_value_nonempty c code_present).
  destruct (Pg.select_invitation d' c) as [|j rest]; [discriminate Hhd|].
  simpl in Hhd. injection Hhd as ->. rewrite Hu. reflexivity.
Qed.

Lemma open_has_no_answer fl :
  Forall (fun f => contender env c i0 (request f) /\
                   (phase f = Arrived \/ phase f = Validated (email i0) i0)) fl ->
  forall s, List.length (filter (answered s) fl) = 0%nat.
Proof.
  intros H s. induction H as [|f fl [_ Hf] _ IH]; simpl; [reflexivity|].
  unfold answered at 1. destruct Hf as [-> | ->]; exact IH.
Qed.

Lemma committed_head now h :
  hd_error (Pg.select_invitation (committed d (email i0) h (id i0) now) c)
  = Some (Pg.mark_used (users_id_seq d) (id i0) now i0).
Proof.
  unfold Pg.select_invitation, committed. simpl.
  rewrite filter_code_mark_used.
  unfold Pg.select_invitation in code_bound.
  destruct (filter _ (invitation_codes d)) as [|i rest]; [discriminate code_bound|].
  simpl in code_bound. injection code_bound as ->. reflexivity.
Qed.

Lemma step_race w ev :
  quiet i0 ev -> race env c d i0 w -> race env c d i0 (step env w ev).
Proof.
  intros Hq Hw.
  destruct ev as [b|n now q|n now fault|now db_now q key b|now q key|now q x];
    simpl in Hq; try contradiction.
  - (* Lookup *)
    destruct Hq as [-> Hx]. simpl.
    destruct (nth_error (flights w) n) as [[b [|e inv|r]]|] eqn:Hn; try exact Hw.
    destruct Hw as [Hd Hfl | i Hhd Hu Ht H201 Hfl].
    + pose proof Hfl as Hall. rewrite Forall_forall in Hall.
      destruct (Hall _ (nth_error_In _ _ Hn)) as [Hb _]. simpl in Hb.
      rewrite Hd, (lookup_step_open now b Hb Hx).
      apply race_open; simpl; [reflexivity|].
      apply Forall_set_nth; [exact Hfl|]. simpl. auto.
    + pose proof Hfl as Hall. rewrite Forall_forall in Hall.
      destruct (Hall _ (nth_error_In _ _ Hn)) as [Hb _]. simpl in Hb.
      rewrite (lookup_step_closed (db w) now b i Hb Hhd Hu).
      apply race_won with (i := i); simpl; auto.
      * rewrite (finished_with_set_nth 201 (db w) (db w) _ n _ _ Hn eq_refl).
        destruct w as [dw fw]. simpl in *. rewrite H201. reflexivity.
      * apply Forall_set_nth; [exact Hfl|]. simpl. split; [exact Hb|].
        right. right. exists ALREADY_USED. auto.
  - (* Transact *)
    subst fault. simpl.
    destruct (nth_error (flights w) n) as [[b [|e inv|r]]|] eqn:Hn; try exact Hw.
    destruct Hw as [Hd Hfl | i Hhd Hu Ht H201 Hfl].
    + pose proof Hfl as Hall. rewrite Forall_forall in Hall.
      destruct (Hall _ (nth_error_In _ _ Hn)) as [Hb Hp]. simpl in Hb, Hp.
      destruct Hp as [Hp|Hp]; [discriminate Hp|]. injection Hp as -> ->.
      destruct Hb as (Hc & He & h & Hh). rewrite Hd.
      rewrite (register_attempt_commits env d now (email i0) (body_password b) i0 h Hh email_free).
      destruct token_signed as [token Hs]. unfold registered. rewrite Hs.
      apply race_won with (i := Pg.mark_used (users_id_seq d) (id i0) now i0); simpl.
      * apply committed_head.
      * unfold Pg.mark_used. rewrite Nat.eqb_refl. reflexivity.
      * unfold Pg.email_taken, committed. simpl. rewrite existsb_app. simpl.
        rewrite String.eqb_refl. apply orb_true_r.
      * rewrite (finished_with_set_nth 201 d _ _ n _ _ Hn eq_refl).
        unfold finished_with at 1. simpl.
        rewrite (open_has_no_answer _ Hfl 201). reflexivity.
      * apply Forall_set_nth.
        -- eapply Forall_impl; [|exact Hfl]. intros f [Hf [Hg|Hg]]; auto.
        -- simpl. split; [repeat split; eauto|].
           right. right. eexists. split; [reflexivity|]. left. reflexivity.
    + pose proof Hfl as Hall. rewrite Forall_forall in Hall.
      destruct (Hall _ (nth_error_In _ _ Hn)) as [Hb Hp]. simpl in Hb, Hp.
      destruct Hp as [Hp|[Hp|(r & Hp & _)]]; try discriminate Hp.
      injection Hp as -> ->.
      destruct Hb as (Hc & He & h & Hh).
      destruct (register_attempt_conflict env (db w) now None (email i0)
                  (body_password b) i0 h Hh eq_refl Ht)
        as (d1 & (Hus & Hin & _) & Hr).
      rewrite Hr.
      apply race_won with (i := i); simpl.
      * unfold Pg.select_invitation in *. rewrite Hin. exact Hhd.
      * exact Hu.
      * unfold Pg.email_taken in *. rewrite Hus. exact Ht.
      * rewrite (finished_with_set_nth 201 (db w) _ _ n _ _ Hn eq_refl).
        destruct w as [dw fw]. simpl in *. rewrite H201. reflexivity.
      * apply Forall_set_nth; [exact Hfl|]. simpl. split; [repeat split; eauto|].
        right. right. exists EMAIL_TAKEN. auto.
Qed.

Lemma run_race evs :
  forall w, Forall (quiet i0) evs -> race env c d i0 w -> race env c d i0 (run env w evs).
Proof.
  induction evs as [|ev rest IH]; intros w Hq Hw; simpl; [exact Hw|].
  inversion Hq; subst. apply IH; [assumption|]. apply step_race; assumption.
Qed.

Lemma arrivals_race bodies :
  Forall (contender env c i0) bodies -> race env c d i0 (arrivals d bodies).
Proof.
  intros H. apply race_open; [reflexivity|]. unfold arrivals. simpl.
  induction H as [|b bodies Hb _ IH]; simpl; constructor; auto.
Qed.

Lemma length_run_flights evs :
  forall w, Forall (quiet i0) evs ->
            List.length (flights (run env w evs)) = List.length (flights w).
Proof.
  induction evs as [|ev rest IH]; intros w Hq; simpl; [reflexivity|].
  inversion Hq as [|? ? Hev Hrest]; subst. rewrite (IH _ Hrest).
  destruct ev as [b|n now q|n now fault|now db_now q key b|now q key|now q x];
    simpl in Hev; try contradiction; simpl.
  - destruct (nth_error (flights w) n) as [[b []]|]; simpl; auto using length_set_nth.
  - destruct (nth_error (flights w) n) as [[b [|e inv|r]]|]; simpl; auto.
    destruct (register_attempt env (db w) now fault e (body_password b) inv).
    simpl. apply length_set_nth.
Qed.

Lemma answered_201_or_400 fl :
  Forall (fun f => exists r, phase f = Finished r /\
                             (status r = 201%nat \/ status r = 400%nat)) fl ->
  (List.length (filter (answered 201) fl) + List.length (filter (answered 400) fl)
   = List.length fl)%nat.
Proof.
  induction 1 as [|f fl (r & Hp & Hs) _ IH]; simpl; [reflexivity|].
  assert (Ha : (answered 201 f = true /\ answered 400 f = false) \/
               (answered 201 f = false /\ answered 400 f = true)).
  { unfold answered. rewrite Hp. destruct Hs as [-> | ->]; auto. }
  destruct Ha as [[-> ->] | [-> ->]]; simpl; lia.
Qed.

(** Once every contender has been answered, exactly one got 201 and the
    others got 400. *)
Lemma exactly_one_success bodies evs :
  bodies <> [] ->
  Forall (contender env c i0) bodies ->
  Forall (quiet i0) evs ->
  all_finished (run env (arrivals d bodies) evs) ->
  finished_with 201 (run env (arrivals d bodies) evs) = 1%nat /\
  finished_with 400 (run env (arrivals d bodies) evs) = (List.length bodies - 1)%nat.
Proof.
  intros Hne Hb Hq Hfin.
  pose proof (length_run_flights evs (arrivals d bodies) Hq) as Hlen.
  unfold arrivals at 2 in Hlen. simpl in Hlen. rewrite length_map in Hlen.
  destruct (run_race evs _ Hq (arrivals_race bodies Hb))
    as [Hd Hfl | i Hhd Hu Ht H201 Hfl].
  - exfalso. unfold all_finished in Hfin.
    destruct (flights (run env (arrivals d bodies) evs)) as [|f fl].
    + destruct bodies; [contradiction | discriminate Hlen].
    + inversion Hfin as [|? ? (r & Hr) _]; subst.
      inversion Hfl as [|? ? [_ [Hp|Hp]] _]; subst; congruence.
  - split; [exact H201|].
    assert (Hall : Forall (fun f => exists r, phase f = Finished r /\
                                   (status r = 201%nat \/ status r = 400%nat))
                          (flights (run env (arrivals d bodies) evs))).
    { unfold all_finished in Hfin. rewrite Forall_forall in *.
      intros f Hf. destruct (Hfin f Hf) as (r & Hr).
      destruct (Hfl f Hf) as [_ [Hp|[Hp|(r' & Hp & Hs)]]]; try congruence.
      exists r'. auto. }
    apply answered_201_or_400 in Hall. unfold finished_with in *. lia.
Qed.

End Race.

(** ** Simultaneous registrations *)

(** C4, a code whose address is already registered: the code is unused and
    unexpired and both requests carry the address it is bound to, yet
    neither is answered 201. *)
Lemma racing_for_a_registered_address :
  option_map used (hd_error (Pg.select_invitation reinvited_db "XYZ789")) = Some false /\
  validateForRedemption reinvited_db (2 * day) false reinvited_body = None /\
  all_finished (run sample_env (arrivals reinvited_db [reinvited_body; reinvited_body])
                    two_racers) /\
  finished_with 201 (run sample_env (arrivals reinvited_db [reinvited_body; reinvited_body])
                         two_racers) = 0%nat /\
  finished_with 201 (run sample_env (arrivals reinvited_db [reinvited_body; reinvited_body])
                         two_racers) <> 1%nat.
Proof.
  split; [reflexivity|]. split; [reflexivity|]. split; [|split].
  - unfold all_finished. vm_compute. repeat constructor; eexists; reflexivity.
  - reflexivity.
  - vm_compute. discriminate.
Qed.

(** C4 (amended): among any requests and events, at most one registration
    with a given code is answered 201; and when the requests all carry a
    non-empty, unused code with the address it is bound to and a password
    that hashes, that address is not registered yet, [jwt.sign] returns a
    token for the new user, no query fails and the lookups happen before the
    expiry, then once all are answered exactly one got 201 and the others
    got 400. *)
Theorem one_registration_per_code env d c :
  (forall bodies evs, (successes c (run env (arrivals d bodies) evs) <= 1)%nat) /\
  (forall i0 bodies evs,
     c <> "" ->
     hd_error (Pg.select_invitation d c) = Some i0 ->
     used i0 = false ->
     Pg.email_taken d (email i0) = false ->
     (exists token,
         jwt_sign env (mkPayload (users_id_seq d) (email i0)) "7d" = Some token) ->
     bodies <> [] ->
     Forall (contender env c i0) bodies ->
     Forall (quiet i0) evs ->
     all_finished (run env (arrivals d bodies) evs) ->
     finished_with 201 (run env (arrivals d bodies) evs) = 1%nat /\
     finished_with 400 (run env (arrivals d bodies) evs) = (List.length bodies - 1)%nat).
Proof.
  split.
  - intros bodies evs. apply at_most_one_success.
  - intros i0 bodies evs Hc Hb Hu Ht Hs Hne Hbodies Hq Hfin.
    apply (exactly_one_success env c d i0 Hc Hb Hu Ht Hs bodies evs Hne Hbodies Hq Hfin).
Qed.

Lemma one_registration_per_code_witness :
  finished_with 201 (run sample_env (arrivals sample_db [sample_body; rival_body]) two_racers)
    = 1%nat /\
  finished_with 400 (run sample_env (arrivals sample_db [sample_body; rival_body]) two_racers)
    = 1%nat.
Proof.
  refine (proj2 (one_registration_per_code sample_env sample_db "ABC123")
            sample_invitation [sample_body; rival_body] two_racers
            _ eq_refl eq_refl eq_refl _ _ _ _ _).
  - discriminate.
  - exists "jwt.a@x.com". reflexivity.
  - discriminate.
  - constructor; [|constructor; [|constructor]];
      (split; [reflexivity | split; [reflexivity | eexists; reflexivity]]).
  - repeat constructor.
  - unfold all_finished. vm_compute. repeat constructor; eexists; reflexivity.
Defined.

(** * Further properties *)

(** ** Registration, start to end *)

(** A registration whose checks pass, whose password hashes and whose
    e-mail is free commits when no statement fails. *)
Lemma post_register_commits env d now db_now q b inv h :
  validateInvitation d now q (invitationCode b) = Next inv ->
  body_email b = Some (email inv) ->
  bcrypt_hash env (body_password b) 12 = Some h ->
  Pg.email_taken d (email inv) = false ->
  post_register env d now db_now q None b
  = (committed d (email inv) h (id inv) db_now,
     registered env (users_id_seq d) (email inv)).
Proof.
  intros Hv Hbe Hh Ht. unfold post_register, register_handler.
  rewrite Hv.
  assert (Hce : check_email b inv = Next (email inv))
    by (apply check_email_next; auto).
  rewrite Hce. apply register_attempt_commits; assumption.
Qed.

(** What a 201 of the route presupposes. *)
Lemma post_register_201 env d now db_now q fault b :
  status (snd (post_register env d now db_now q fault b)) = 201%nat ->
  exists inv h token,
    validateInvitation d now q (invitationCode b) = Next inv /\
    body_email b = Some (email inv) /\
    bcrypt_hash env (body_password b) 12 = Some h /\
    fault = None /\
    Pg.email_taken d (email inv) = false /\
    jwt_sign env (mkPayload (users_id_seq d) (email inv)) "7d" = Some token.
Proof.
  unfold post_register, register_handler.
  destruct (validateInvitation d now q (invitationCode b)) as [r|inv] eqn:Hv.
  - simpl. intros Hs. apply validateInvitation_respond in Hv as [Hr|Hr];
      rewrite Hr in Hs; discriminate.
  - destruct (check_email b inv) as [r|e] eqn:Hce.
    + simpl. apply check_email_respond in Hce. subst. discriminate.
    + apply check_email_next in Hce as [Hbe ->].
      destruct (register_attempt_outcome env d db_now fault (email inv)
                  (body_password b) inv)
        as [(h & Hh & Hf & Ht & Hr) | (d1 & _ & [Hr|Hr])].
      * rewrite Hr. simpl. intros Hs.
        apply (proj1 (registered_status env _ _)) in Hs as [token Hs].
        exists inv, h, token. auto 6.
      * rewrite Hr. discriminate.
      * rewrite Hr. discriminate.
Qed.

(** X3: the route answers 201 exactly when the invitation checks pass, the
    password hashes, no statement fails, the e-mail is free and [jwt.sign]
    returns a token; under the first four the database is the old one with
    the new user appended and the invitation consumed, and the answer is
    [registered]: 201 naming that user with the token, or 500 when
    [jwt.sign] throws. *)
Theorem registration_succeeds_exactly_when env d now db_now q fault b :
  (status (snd (post_register env d now db_now q fault b)) = 201%nat <->
   exists inv h token,
     validateInvitation d now q (invitationCode b) = Next inv /\
     body_email b = Some (email inv) /\
     bcrypt_hash env (body_password b) 12 = Some h /\
     fault = None /\
     Pg.email_taken d (email inv) = false /\
     jwt_sign env (mkPayload (users_id_seq d) (email inv)) "7d" = Some token) /\
  (forall inv h,
     validateInvitation d now q (invitationCode b) = Next inv ->
     body_email b = Some (email inv) ->
     bcrypt_hash env (body_password b) 12 = Some h ->
     fault = None ->
     Pg.email_taken d (email inv) = false ->
     fst (post_register env d now db_now q fault b)
       = committed d (email inv) h (id inv) db_now /\
     match jwt_sign env (mkPayload (users_id_seq d) (email inv)) "7d" with
     | Some token =>
         snd (post_register env d now db_now q fault b)
         = mkResponse 201
             (RegisteredBody "Registration successful" token
                (users_id_seq d) (email inv))
     | None =>
         snd (post_register env d now db_now q fault b)
         = reject 500 "Registration failed"
     end).
Proof.
  split.
  - split; [apply post_register_201|].
    intros (inv & h & token & Hv & Hbe & Hh & -> & Ht & Hs).
    rewrite (post_register_commits env d now db_now q b inv h Hv Hbe Hh Ht).
    simpl. apply (proj1 (registered_status env _ _)). exists token. exact Hs.
  - intros inv h Hv Hbe Hh -> Ht.
    rewrite (post_register_commits env d now db_now q b inv h Hv Hbe Hh Ht).
    split; [reflexivity|]. simpl. unfold registered.
    destruct (jwt_sign env (mkPayload (users_id_seq d) (email inv)) "7d"); reflexivity.
Qed.

Lemma registration_succeeds_exactly_when_witness :
  fst (post_register sample_env sample_db day (2 * day) false None sample_body)
    = committed sample_db "a@x.com" "$2b$12$secret1" 1 (2 * day) /\
  snd (post_register sample_env sample_db day (2 * day) false None sample_body)
    = mkResponse 201 (RegisteredBody "Registration successful" "jwt.a@x.com" 1 "a@x.com").
Proof.
  exact (proj2 (registration_succeeds_exactly_when sample_env sample_db day (2 * day)
                  false None sample_body)
           sample_invitation "$2b$12$secret1" eq_refl eq_refl eq_refl eq_refl eq_refl).
Defined.

Lemma committed_select d e h inv now c rest :
  Pg.select_invitation d c = inv :: rest ->
  Pg.select_invitation (committed d e h (id inv) now) c
  = Pg.mark_used (users_id_seq d) (id inv) now inv
    :: map (Pg.mark_used (users_id_seq d) (id inv) now) rest.
Proof.
  unfold Pg.select_invitation, committed. simpl. intros Hsel.
  rewrite filter_code_mark_used, Hsel. reflexivity.
Qed.

Lemma mark_used_target uid now inv :
  used (Pg.mark_used uid (id inv) now inv) = true.
Proof. unfold Pg.mark_used. rewrite Nat.eqb_refl. reflexivity. Qed.

Lemma validateInvitation_next_select d now q v inv :
  validateInvitation d now q v = Next inv ->
  exists c rest, v = Some c /\ c <> "" /\ Pg.select_invitation d c = inv :: rest.
Proof.
  unfold validateInvitation.
  destruct (Js.truthy_value v) as [c|] eqn:Hv; [|discriminate].
  apply truthy_value_some in Hv as [-> Hc].
  destruct q; [discriminate|].
  destruct (Pg.select_invitation d c) as [|i rest] eqn:Hsel; [discriminate|].
  destruct (used i); [discriminate|].
  destruct (Pg.past_expiry now i); [discriminate|].
  intros H. inversion H; subst. exists c, rest. auto.
Qed.

(** X4: once a registration has been answered 201, its code is spent:
    whatever the clock and the request, the middleware answers "already
    used", a further registration with the code is turned away without
    touching the database, and verify-invitation answers 409. *)
Theorem registered_code_is_spent env d now db_now q fault b d' r c :
  post_register env d now db_now q fault b = (d', r) ->
  status r = 201%nat ->
  invitationCode b = Some c ->
  forall now' db_now' fault' b',
    invitationCode b' = Some c ->
    validateInvitation d' now' false (Some c) = Respond ALREADY_USED /\
    post_register env d' now' db_now' false fault' b' = (d', ALREADY_USED) /\
    post_verify_invitation d' now' false (Some c)
      = mkResponse 409 (InvalidBody "Invitation code already used").
Proof.
  intros Hrun Hs Hc now' db_now' fault' b' Hc'.
  assert (H201 : status (snd (post_register env d now db_now q fault b)) = 201%nat)
    by (rewrite Hrun; exact Hs).
  apply post_register_201 in H201 as (inv & h & token & Hv & Hbe & Hh & -> & Ht & Hsg).
  rewrite (post_register_commits env d now db_now q b inv h Hv Hbe Hh Ht) in Hrun.
  inversion Hrun; subst d' r. clear Hrun.
  destruct (validateInvitation_next_select _ _ _ _ _ Hv) as (c0 & rest & Hc0 & Hne & Hsel).
  rewrite Hc in Hc0. injection Hc0 as <-.
  assert (Hmw : validateInvitation (committed d (email inv) h (id inv) db_now) now' false
                  (Some c) = Respond ALREADY_USED).
  { unfold validateInvitation. rewrite (truthy_value_nonempty c Hne).
    rewrite (committed_select d _ h inv db_now c rest Hsel), mark_used_target.
    reflexivity. }
  split; [exact Hmw|]. split.
  - unfold post_register. rewrite Hc', Hmw. reflexivity.
  - unfold post_verify_invitation. rewrite (truthy_value_nonempty c Hne).
    rewrite (committed_select d _ h inv db_now c rest Hsel), mark_used_target.
    reflexivity.
Qed.

Lemma registered_code_is_spent_witness :
  post_register sample_env
    (fst (post_register sample_env sample_db day (2 * day) false None sample_body))
    (3 * day) (3 * day) false None rival_body
  = (fst (post_register sample_env sample_db day (2 * day) false None sample_body),
     ALREADY_USED).
Proof.
  exact (proj1 (proj2
           (registered_code_is_spent sample_env sample_db day (2 * day) false None
              sample_body _ _ "ABC123" eq_refl eq_refl eq_refl
              (3 * day) (3 * day) None rival_body eq_refl))).
Defined.

(** ** POST /api/login *)

Lemma select_user_head d e user rest :
  select_user d e = user :: rest -> e = Some (user_email user) /\ In user (users d).
Proof.
  unfold select_user. destruct e as [x|]; [|discriminate]. intros Hf.
  assert (Hin : In user (filter (fun u => String.eqb (user_email u) x) (users d)))
    by (rewrite Hf; left; reflexivity).
  apply filter_In in Hin as [Hi Hx]. apply String.eqb_eq in Hx. subst. auto.
Qed.

(** X1: login answers 200 exactly when the query succeeds, a user row has
    the e-mail, [bcrypt.compare] accepts the password against its stored
    hash and [jwt.sign] returns a token; the token and user of the response
    are then for that row's id and e-mail, and when [jwt.sign] throws the
    answer is 500 "Login failed"; an unknown e-mail and a wrong password get
    one and the same 401 response. *)
Theorem login_accepts_only_the_stored_password env sv d q b :
  (status (post_login env sv d q b) = 200%nat <->
   q = false /\
   exists user rest token,
     select_user d (login_email b) = user :: rest /\
     bcrypt_compare sv (login_password b) (password_hash user) = Some true /\
     jwt_sign env (mkPayload (user_id user) (user_email user)) "7d" = Some token) /\
  (forall user rest,
     q = false ->
     select_user d (login_email b) = user :: rest ->
     bcrypt_compare sv (login_password b) (password_hash user) = Some true ->
     match jwt_sign env (mkPayload (user_id user) (user_email user)) "7d" with
     | Some token =>
         post_login env sv d q b
         = mkResponse 200
             (RegisteredBody "Login successful" token
                (user_id user) (user_email user))
     | None => post_login env sv d q b = reject 500 "Login failed"
     end /\
     login_email b = Some (user_email user) /\ In user (users d)) /\
  (status (post_login env sv d q b) = 401%nat ->
   post_login env sv d q b = reject 401 "Invalid credentials").
Proof.
  unfold post_login. split; [|split].
  - split.
    + destruct q; [discriminate|].
      destruct (select_user d (login_email b)) as [|user rest]; [discriminate|].
      destruct (bcrypt_compare sv (login_password b) (password_hash user))
        as [[]|] eqn:Hcmp; simpl; try discriminate.
      destruct (jwt_sign env (mkPayload (user_id user) (user_email user)) "7d")
        as [token|] eqn:Hs; simpl; try discriminate.
      intros _. split; [reflexivity|]. exists user, rest, token. auto.
    + intros (-> & user & rest & token & -> & -> & ->). reflexivity.
  - intros user rest -> Hsel Hcmp. rewrite Hsel, Hcmp.
    split; [|eapply select_user_head; eassumption].
    destruct (jwt_sign env (mkPayload (user_id user) (user_email user)) "7d");
      reflexivity.
  - destruct q; [discriminate|].
    destruct (select_user d (login_email b)) as [|user rest]; [reflexivity|].
    destruct (bcrypt_compare sv (login_password b) (password_hash user))
      as [[]|]; simpl; try discriminate; [|reflexivity].
    destruct (jwt_sign env (mkPayload (user_id user) (user_email user)) "7d");
      simpl; discriminate.
Qed.

Lemma login_accepts_only_the_stored_password_witness :
  post_login sample_env sample_services linked_db false
    (mkLoginBody (Some "a@x.com") (Some "secret1"))
  = mkResponse 200
      (RegisteredBody "Login successful" "jwt.a@x.com" 1 "a@x.com") /\
  post_login unsigned_env sample_services linked_db false
    (mkLoginBody (Some "a@x.com") (Some "secret1"))
  = reject 500 "Login failed" /\
  post_login sample_env sample_services linked_db false
    (mkLoginBody (Some "a@x.com") (Some "guess"))
  = post_login sample_env sample_services linked_db false
      (mkLoginBody (Some "nobody@x.com") (Some "guess")).
Proof.
  split; [|split].
  - exact (proj1 (proj1 (proj2
             (login_accepts_only_the_stored_password sample_env sample_services linked_db
                false (mkLoginBody (Some "a@x.com") (Some "secret1"))))
             (mkUser 1 "a@x.com" "$2b$12$secret1" day) [] eq_refl eq_refl eq_refl)).
  - exact (proj1 (proj1 (proj2
             (login_accepts_only_the_stored_password unsigned_env sample_services
                linked_db false (mkLoginBody (Some "a@x.com") (Some "secret1"))))
             (mkUser 1 "a@x.com" "$2b$12$secret1" day) [] eq_refl eq_refl eq_refl)).
  - rewrite (proj2 (proj2
               (login_accepts_only_the_stored_password sample_env sample_services
                  linked_db false (mkLoginBody (Some "a@x.com") (Some "guess")))) eq_refl).
    rewrite (proj2 (proj2
               (login_accepts_only_the_stored_password sample_env sample_services
                  linked_db false (mkLoginBody (Some "nobody@x.com") (Some "guess")))) eq_refl).
    reflexivity.
Defined.




(** ** /api/admin/invitations *)

Lemma strict_neq_opt_true a b : Js.strict_neq_opt a b = true <-> a <> b.
Proof.
  unfold Js.strict_neq_opt. destruct a as [x|], b as [y|]; simpl.
  - rewrite negb_true_iff, String.eqb_neq. split; congruence.
  - split; [discriminate | reflexivity].
  - split; [discriminate | reflexivity].
  - split; [discriminate | congruence].
Qed.

Lemma strict_neq_opt_false a b : Js.strict_neq_opt a b = false <-> a = b.
Proof.
  destruct (Js.strict_neq_opt a b) eqn:H.
  - apply strict_neq_opt_true in H. split; [discriminate | contradiction].
  - split; [|reflexivity]. intros _.
    unfold Js.strict_neq_opt in H. destruct a as [x|], b as [y|]; try discriminate.
    + apply negb_false_iff, String.eqb_eq in H. congruence.
    + reflexivity.
Qed.

(** X7: both admin routes answer 401 exactly when the supplied key differs
    from ADMIN_KEY, and the creation then leaves the database alone; in
    particular, when ADMIN_KEY is not configured a request that carries no
    key at all is let through. *)
Theorem admin_key_is_compared_exactly env d now db_now q key b :
  (status (get_admin_invitations env d now q key) = 401%nat <-> key <> ADMIN_KEY env) /\
  (status (snd (post_admin_invitations env d now db_now q key b)) = 401%nat
     <-> key <> ADMIN_KEY env) /\
  (key <> ADMIN_KEY env ->
     post_admin_invitations env d now db_now q key b = (d, reject 401 "Unauthorized")) /\
  (ADMIN_KEY env = None ->
     status (get_admin_invitations env d now false None) = 200%nat).
Proof.
  unfold get_admin_invitations, post_admin_invitations.
  split; [|split; [|split]].
  - destruct (Js.strict_neq_opt key (ADMIN_KEY env)) eqn:Hk.
    + apply strict_neq_opt_true in Hk. split; [auto | reflexivity].
    + apply strict_neq_opt_false in Hk. split; [|contradiction].
      destruct q; discriminate.
  - destruct (Js.strict_neq_opt key (ADMIN_KEY env)) eqn:Hk.
    + apply strict_neq_opt_true in Hk. split; [auto | reflexivity].
    + apply strict_neq_opt_false in Hk. split; [|contradiction].
      destruct (Js.truthy_value (new_code b)); [|discriminate].
      destruct (Js.truthy_value (new_email b)); [|discriminate].
      destruct q; [discriminate|]. cbv zeta.
      destruct (date_after_days env now _); [|discriminate].
      destruct (Pg.varchar 50 s) as [stored_code|]; [|discriminate].
      destruct (Pg.varchar 255 s0); [|discriminate].
      destruct (Pg.code_taken d stored_code); discriminate.
  - intros Hk. apply strict_neq_opt_true in Hk. rewrite Hk. reflexivity.
  - intros ->. reflexivity.
Qed.

Lemma admin_key_is_compared_exactly_witness :
  post_admin_invitations sample_env empty_db 0 0 false (Some "guess") sample_create
  = (empty_db, reject 401 "Unauthorized").
Proof.
  refine (proj1 (proj2 (proj2
            (admin_key_is_compared_exactly sample_env empty_db 0 0 false (Some "guess")
               sample_create))) _).
  discriminate.
Defined.

Lemma filter_code_free d c :
  Pg.code_taken d c = false ->
  filter (fun i => String.eqb (code i) c) (invitation_codes d) = [].
Proof.
  unfold Pg.code_taken. induction (invitation_codes d) as [|i rows IH]; simpl;
    [reflexivity|].
  intros H. apply orb_false_iff in H as [Hi Hrows]. rewrite Hi. auto.
Qed.

Lemma post_admin_invitations_created env d now db_now q key b d' msg row :
  post_admin_invitations env d now db_now q key b = (d', mkResponse 201 (CreatedBody msg row)) ->
  exists c e expiresAt,
    Js.truthy_value (new_code b) = Some c /\ Js.truthy_value (new_email b) = Some e /\
    key = ADMIN_KEY env /\ q = false /\
    date_after_days env now
      (match expiresInDays b with Some n => n | None => "30" end) = Some expiresAt /\
    Pg.varchar 50 c = Some (code row) /\ Pg.varchar 255 e = Some (email row) /\
    Pg.code_taken d (code row) = false /\
    row = mkInvitation (invitation_codes_id_seq d) (code row) (email row) false None
            db_now None (Some expiresAt) /\
    d' = mkDb (users d) (invitation_codes d ++ [row])%list (plaid_items d)
              (users_id_seq d) (S (invitation_codes_id_seq d)).
Proof.
  intros H.
  destruct (post_admin_invitations_effect env d now db_now q key b)
    as [(_ & _ & _ & Hs) | (c & e & x & sc & se & Hk & Hq & Hc & He & Hd & Hsc & Hse & Ht & Hr)].
  - rewrite H in Hs. exfalso. apply Hs. reflexivity.
  - rewrite Hr in H. inversion H; subst d' row. simpl.
    exists c, e, x. repeat split; auto.
Qed.

Lemma prefix_nonempty n s : s <> "" -> Pg.prefix (S n) s <> "".
Proof. destruct s; [congruence | discriminate]. Qed.

Lemma varchar_nonempty n s stored :
  Pg.varchar (S n) s = Some stored -> (s <> "" <-> stored <> "").
Proof.
  unfold Pg.varchar. destruct (Pg.all_spaces (Pg.excess (S n) s)); [|discriminate].
  intros H. injection H as <-. destruct s; simpl; split; congruence.
Qed.

Lemma select_created d row :
  Pg.code_taken d (code row) = false ->
  Pg.select_invitation
    (mkDb (users d) (invitation_codes d ++ [row])%list (plaid_items d)
          (users_id_seq d) (S (invitation_codes_id_seq d))) (code row)
  = [row].
Proof.
  intros Ht. unfold Pg.select_invitation. simpl.
  rewrite filter_app, (filter_code_free d _ Ht). simpl.
  rewrite String.eqb_refl. reflexivity.
Qed.

(** X5: the code of a freshly created invitation is the text of the
    request as a VARCHAR(50) holds it, its expiry is the Date that
    JavaScript computed from [expiresInDays] (30 when absent), the new row
    is the one row the lookups find under that code, and from then on the
    middleware lets it through, and verify-invitation answers 200, exactly
    as long as Node's clock is not past that expiry. *)
Theorem created_code_is_redeemable_until_expiry env d now db_now q key b d' msg row :
  post_admin_invitations env d now db_now q key b = (d', mkResponse 201 (CreatedBody msg row)) ->
  exists c e expiresAt,
    new_code b = Some c /\ new_email b = Some e /\
    Pg.varchar 50 c = Some (code row) /\ Pg.varchar 255 e = Some (email row) /\
    date_after_days env now
      (match expiresInDays b with Some n => n | None => "30" end) = Some expiresAt /\
    expires_at row = Some expiresAt /\
    Pg.select_invitation d' (code row) = [row] /\
    forall t,
      (validateInvitation d' t false (Some (code row)) = Next row <-> t <= expiresAt) /\
      (status (post_verify_invitation d' t false (Some (code row))) = 200%nat <->
       t <= expiresAt).
Proof.
  intros H.
  apply post_admin_invitations_created in H
    as (c & e & x & Hc & He & _ & _ & Hd & Hsc & Hse & Ht & Hrow & ->).
  apply truthy_value_some in Hc as [Hc Hne]. apply truthy_value_some in He as [He _].
  exists c, e, x.
  split; [exact Hc|]. split; [exact He|]. split; [exact Hsc|]. split; [exact Hse|].
  split; [exact Hd|]. split; [rewrite Hrow; reflexivity|].
  pose proof (select_created d row Ht) as Hsel.
  split; [exact Hsel|]. intros t.
  apply (varchar_nonempty 49 c (code row) Hsc) in Hne.
  unfold validateInvitation, post_verify_invitation.
  rewrite (truthy_value_nonempty (code row) Hne), Hsel.
  assert (Hu : used row = false) by (rewrite Hrow; reflexivity).
  assert (Hx : expires_at row = Some x) by (rewrite Hrow; reflexivity).
  rewrite Hu. unfold Pg.past_expiry. rewrite Hx.
  destruct (Z.ltb_spec x t).
  - split; split; simpl; try discriminate; lia.
  - split; split; simpl; try reflexivity; lia.
Qed.

Lemma created_code_is_redeemable_until_expiry_witness :
  exists c e expiresAt,
    new_code sample_create = Some c /\ new_email sample_create = Some e /\
    Pg.varchar 50 c = Some "ABC123" /\ Pg.varchar 255 e = Some "a@x.com" /\
    date_after_days sample_env 0 "30" = Some expiresAt /\
    Some (30 * day) = Some expiresAt /\
    Pg.select_invitation
      (fst (post_admin_invitations sample_env empty_db 0 0 false (Some "admin-key")
              sample_create)) "ABC123"
    = [sample_invitation] /\
    forall t,
      (validateInvitation
         (fst (post_admin_invitations sample_env empty_db 0 0 false (Some "admin-key")
                 sample_create)) t false (Some "ABC123")
       = Next sample_invitation <-> t <= expiresAt) /\
      (status (post_verify_invitation
                 (fst (post_admin_invitations sample_env empty_db 0 0 false
                         (Some "admin-key") sample_create)) t false (Some "ABC123"))
       = 200%nat <-> t <= expiresAt).
Proof.
  exact (created_code_is_redeemable_until_expiry sample_env empty_db 0 0 false
           (Some "admin-key") sample_create _ _ sample_invitation eq_refl).
Defined.

(** X6: a code can be created once: after a creation answered 201, a
    further creation whose code is stored as the same text, whose e-mail
    fits its column and whose lifetime gives a Date the database takes, is
    answered 400 "Invitation code already exists" and leaves every row as
    it was. *)
Theorem code_is_created_once env d now db_now q key b d' msg row now' db_now' b' c' e' :
  post_admin_invitations env d now db_now q key b = (d', mkResponse 201 (CreatedBody msg row)) ->
  new_code b' = Some c' ->
  Pg.varchar 50 c' = Some (code row) ->
  new_email b' = Some e' ->
  e' <> "" ->
  Pg.varchar 255 e' <> None ->
  date_after_days env now'
    (match expiresInDays b' with Some n => n | None => "30" end) <> None ->
  exists d'',
    post_admin_invitations env d' now' db_now' false key b'
    = (d'', reject 400 "Invitation code already exists") /\
    same_rows d' d''.
Proof.
  intros H Hc' Hsc' He' Hne' Hse' Hd'.
  apply post_admin_invitations_created in H
    as (c & e & x & Hc & He & Hk & _ & _ & Hsc & _ & Ht & Hrow & ->).
  apply truthy_value_some in Hc as [_ Hne].
  apply (varchar_nonempty 49 c (code row) Hsc) in Hne.
  apply (varchar_nonempty 49 c' (code row) Hsc') in Hne.
  unfold post_admin_invitations.
  apply strict_neq_opt_false in Hk. rewrite Hk.
  rewrite Hc', He', (truthy_value_nonempty c' Hne), (truthy_value_nonempty e' Hne').
  cbv zeta.
  destruct (date_after_days env now' _) as [x'|]; [|contradiction].
  rewrite Hsc'.
  destruct (Pg.varchar 255 e') as [se'|]; [|contradiction].
  assert (Htaken : Pg.code_taken
                     (mkDb (users d) (invitation_codes d ++ [row])%list
                        (plaid_items d) (users_id_seq d) (S (invitation_codes_id_seq d)))
                     (code row) = true).
  { unfold Pg.code_taken. simpl. rewrite existsb_app. simpl.
    rewrite String.eqb_refl. apply orb_true_iff. right. reflexivity. }
  rewrite Htaken. eexists. split; [reflexivity|]. repeat split.
Qed.

Lemma code_is_created_once_witness :
  exists d'',
    post_admin_invitations sample_env
      (fst (post_admin_invitations sample_env empty_db 0 0 false (Some "admin-key")
              sample_create))
      day day false (Some "admin-key")
      (mkCreateBody (Some "ABC123") (Some "b@y.com") (Some "7"))
    = (d'', reject 400 "Invitation code already exists") /\
    same_rows (fst (post_admin_invitations sample_env empty_db 0 0 false (Some "admin-key")
                      sample_create)) d''.
Proof.
  refine (code_is_created_once sample_env empty_db 0 0 false (Some "admin-key")
            sample_create _ _ sample_invitation day day
            (mkCreateBody (Some "ABC123") (Some "b@y.com") (Some "7")) "ABC123" "b@y.com"
            eq_refl eq_refl eq_refl eq_refl _ _ _); discriminate.
Defined.

(** ** The admin listing *)

Lemma insert_desc_perm i l : Permutation (insert_desc i l) (i :: l).
Proof.
  induction l as [|j rest IH]; simpl; [reflexivity|].
  destruct (Z.ltb (created_at j) (created_at i)); [reflexivity|].
  rewrite IH. apply perm_swap.
Qed.

Lemma order_fold_perm rows :
  forall acc,
    Permutation (fold_left (fun sorted i => insert_desc i sorted) rows acc) (rows ++ acc).
Proof.
  induction rows as [|r rows IH]; intros acc; simpl; [reflexivity|].
  rewrite IH, insert_desc_perm. symmetry. apply Permutation_middle.
Qed.

Lemma order_by_created_at_desc_perm rows :
  Permutation (order_by_created_at_desc rows) rows.
Proof.
  unfold order_by_created_at_desc. rewrite order_fold_perm, app_nil_r. reflexivity.
Qed.

Lemma insert_desc_sorted i l :
  StronglySorted (fun a b => created_at b <= created_at a) l ->
  StronglySorted (fun a b => created_at b <= created_at a) (insert_desc i l).
Proof.
  induction 1 as [|j rest Hrest IH Hj]; simpl.
  - constructor; constructor.
  - destruct (Z.ltb_spec (created_at j) (created_at i)) as [Hlt|Hge].
    + constructor; [constructor; assumption|].
      constructor; [lia|].
      eapply Forall_impl; [|exact Hj]. simpl. intros x Hx. lia.
    + constructor; [exact IH|].
      eapply Permutation_Forall; [symmetry; apply insert_desc_perm|].
      constructor; assumption.
Qed.

Lemma order_fold_sorted rows :
  forall acc,
    StronglySorted (fun a b => created_at b <= created_at a) acc ->
    StronglySorted (fun a b => created_at b <= created_at a)
                   (fold_left (fun sorted i => insert_desc i sorted) rows acc).
Proof.
  induction rows as [|r rows IH]; intros acc Hacc; simpl; [exact Hacc|].
  apply IH, insert_desc_sorted, Hacc.
Qed.

Lemma listed_sorted now l :
  StronglySorted (fun a b => created_at b <= created_at a) l ->
  StronglySorted newer_first (map (fun i => mkListed i (sql_expired now i)) l).
Proof.
  induction 1 as [|j rest Hrest IH Hj]; simpl; constructor; [exact IH|].
  apply Forall_map. exact Hj.
Qed.

(** X8: the listing shows every invitation of the table exactly once,
    newest first, each with the flag [expires_at < NOW()], and [total] is
    the number of rows. *)
Theorem listing_is_the_table_newest_first env d now q key rows stats :
  get_admin_invitations env d now q key = mkResponse 200 (ListingBody rows stats) ->
  Permutation (map listed rows) (invitation_codes d) /\
  StronglySorted newer_first rows /\
  Forall (fun l => expired l = sql_expired now (listed l)) rows /\
  total stats = List.length (invitation_codes d).
Proof.
  unfold get_admin_invitations.
  destruct (Js.strict_neq_opt key (ADMIN_KEY env)); [discriminate|].
  destruct q; [discriminate|].
  intros H. inversion H; subst rows stats; clear H. simpl.
  split; [|split; [|split]].
  - rewrite map_map. simpl. rewrite map_id. apply order_by_created_at_desc_perm.
  - apply listed_sorted. unfold order_by_created_at_desc.
    apply order_fold_sorted. constructor.
  - apply Forall_map. apply Forall_forall. intros i _. reflexivity.
  - reflexivity.
Qed.

Lemma listing_is_the_table_newest_first_witness :
  StronglySorted newer_first
    [mkListed (mkInvitation 2 "XYZ789" "a@x.com" false None day None (Some (31 * day))) false;
     mkListed (mkInvitation 1 "ABC123" "a@x.com" true (Some 1%nat) 0 (Some day)
                 (Some (30 * day))) false].
Proof.
  exact (proj1 (proj2
           (listing_is_the_table_newest_first sample_env reinvited_db (2 * day) false
              (Some "admin-key") _ _ eq_refl))).
Defined.

Lemma four_way_count (rows : list Invitation) (p1 p2 p3 p4 : Invitation -> bool) :
  (forall i, (Nat.b2n (p1 i) + Nat.b2n (p2 i) + Nat.b2n (p3 i) + Nat.b2n (p4 i) = 1)%nat) ->
  (List.length rows
   = count p1 rows + count p2 rows + count p3 rows + count p4 rows)%nat.
Proof.
  intros Hone. unfold count.
  induction rows as [|i rows IH]; simpl; [reflexivity|].
  specialize (Hone i).
  destruct (p1 i), (p2 i), (p3 i), (p4 i); simpl in *; lia.
Qed.

Lemma count_le (p q : Invitation -> bool) rows :
  (forall i, p i = true -> q i = true) -> (count p rows <= count q rows)%nat.
Proof.
  intros Hpq. unfold count. induction rows as [|i rows IH]; simpl; [lia|].
  destruct (p i) eqn:Hp.
  - rewrite (Hpq i Hp). simpl. lia.
  - destruct (q i); simpl; lia.
Qed.

Lemma count_disjoint (p q : Invitation -> bool) rows :
  (forall i, p i = true -> q i = false) ->
  (count p rows + count q rows <= List.length rows)%nat.
Proof.
  intros Hpq. unfold count. induction rows as [|i rows IH]; simpl; [lia|].
  destruct (p i) eqn:Hp.
  - rewrite (Hpq i Hp). simpl. lia.
  - destruct (q i); simpl; lia.
Qed.

(** X9: in the statistics of the listing every row is counted in exactly
    one of: used, available, unused and past its expiry, unused and expiring
    at this very instant.  So [available] never overlaps [expired], and an
    unused code whose expiry is now is reported neither as available nor as
    expired. *)
Theorem listing_stats_partition env d now q key rows stats :
  get_admin_invitations env d now q key = mkResponse 200 (ListingBody rows stats) ->
  (total stats
   = used_count stats + available stats
     + count (fun i => negb (used i) && sql_expired now i) (invitation_codes d)
     + count (fun i => negb (used i) && expires_now now i) (invitation_codes d))%nat /\
  (count (fun i => negb (used i) && sql_expired now i) (invitation_codes d)
   <= expired_count stats)%nat /\
  (available stats + expired_count stats <= total stats)%nat.
Proof.
  unfold get_admin_invitations.
  destruct (Js.strict_neq_opt key (ADMIN_KEY env)); [discriminate|].
  destruct q; [discriminate|].
  intros H. inversion H; subst rows stats; clear H. simpl.
  assert (Hpart : (List.length (invitation_codes d)
     = count used (invitation_codes d) + count (sql_available now) (invitation_codes d)
       + count (fun i => negb (used i) && sql_expired now i) (invitation_codes d)
       + count (fun i => negb (used i) && expires_now now i) (invitation_codes d))%nat).
  { apply four_way_count. intros i.
    unfold sql_available, sql_expired, expires_now.
    destruct (used i); simpl; [reflexivity|].
    destruct (expires_at i) as [e|]; [|reflexivity].
    destruct (Z.ltb_spec now e), (Z.ltb_spec e now), (Z.eqb_spec e now);
      simpl; try reflexivity; lia. }
  split; [exact Hpart|]. split.
  - apply count_le. intros i Hi. apply andb_true_iff in Hi as [_ Hi]. exact Hi.
  - apply count_disjoint. intros i. unfold sql_available, sql_expired.
    destruct (used i); simpl; [discriminate|].
    destruct (expires_at i) as [e|]; [|reflexivity].
    destruct (Z.ltb_spec now e), (Z.ltb_spec e now); try reflexivity; try discriminate; lia.
Qed.

Lemma listing_stats_partition_witness :
  (1 = 0 + 0
       + count (fun i => negb (used i) && sql_expired (30 * day)%Z i)
           (invitation_codes sample_db)
       + count (fun i => negb (used i) && expires_now (30 * day)%Z i)
           (invitation_codes sample_db))%nat.
Proof.
  exact (proj1 (listing_stats_partition sample_env sample_db (30 * day) false
                  (Some "admin-key") _ _ eq_refl)).
Defined.

(** ** The Authorization header *)

Lemma append_separator_nonempty l (ch : ascii) r : (l ++ String ch r)%string <> "".
Proof. destruct l; discriminate. Qed.

Lemma bearer_token_second_word scheme token :
  occurs " " scheme = false -> occurs " " token = false ->
  bearer_token (Some (scheme ++ " " ++ token)) = Some token /\
  forall junk, bearer_token (Some (scheme ++ " " ++ token ++ " " ++ junk)) = Some token.
Proof.
  intros Hs Ht. unfold bearer_token. cbn [append]. split; [|intros junk].
  - rewrite (truthy_value_nonempty _ (append_separator_nonempty scheme " " token)).
    rewrite (split_at_first_separator " " scheme token Hs).
    rewrite (split_without_separator " " token Ht). reflexivity.
  - rewrite (truthy_value_nonempty _
               (append_separator_nonempty scheme " " (token ++ String " " junk))).
    rewrite (split_at_first_separator " " scheme _ Hs).
    rewrite (split_at_first_separator " " token junk Ht). reflexivity.
Qed.

(** X13: the middleware takes the second space-separated word of the
    Authorization header as the token, whatever the first word is and
    whatever follows the second: the scheme is not checked.  A header with
    no space in it is answered 401 without consulting [jwt.verify]. *)
Theorem authenticateToken_reads_the_second_word env scheme token :
  occurs " " scheme = false -> occurs " " token = false -> token <> "" ->
  (authenticateToken env (Some (scheme ++ " " ++ token))
   = match jwt_verify env token with
     | Verified user => Next user
     | Rejected _ => Respond (reject 403 "Invalid token")
     end) /\
  (forall junk,
     authenticateToken env (Some (scheme ++ " " ++ token ++ " " ++ junk))
     = authenticateToken env (Some (scheme ++ " " ++ token))) /\
  authenticateToken env (Some token) = Respond (reject 401 "Access token required").
Proof.
  intros Hs Ht Hne.
  destruct (bearer_token_second_word scheme token Hs Ht) as [Hb Hj].
  unfold authenticateToken. split; [|split].
  - rewrite Hb, (truthy_value_nonempty token Hne).
    destruct (jwt_verify env token); reflexivity.
  - intros junk. rewrite Hj, Hb. reflexivity.
  - unfold bearer_token. rewrite (truthy_value_nonempty token Hne).
    rewrite (split_without_separator " " token Ht). reflexivity.
Qed.

Lemma authenticateToken_reads_the_second_word_witness :
  authenticateToken sample_env (Some ("Basic" ++ " " ++ "good"))
  = Next (mkPayload 1 "a@x.com") /\
  authenticateToken sample_env (Some "good")
  = Respond (reject 401 "Access token required").
Proof.
  assert (Hne : "good" <> "") by discriminate.
  split.
  - exact (proj1 (authenticateToken_reads_the_second_word sample_env "Basic" "good"
                    eq_refl eq_refl Hne)).
  - exact (proj2 (proj2 (authenticateToken_reads_the_second_word sample_env "Basic" "good"
                           eq_refl eq_refl Hne))).
Defined.

(** ** Linked accounts *)

Lemma fetch_accounts_some env tokens fetched :
  fetch_accounts env tokens = Some fetched ->
  forall a, In a fetched ->
    exists t accounts, In t tokens /\ accountsGet env t = Some accounts /\ In a accounts.
Proof.
  revert fetched. induction tokens as [|t rest IH]; simpl; intros fetched H a Ha.
  - inversion H; subst. contradiction.
  - destruct (accountsGet env t) as [accounts|] eqn:Ht; [|discriminate].
    destruct (fetch_accounts env rest) as [more|]; [|discriminate].
    inversion H; subst. apply in_app_or in Ha as [Ha|Ha].
    + exists t, accounts. auto.
    + destruct (IH more eq_refl a Ha) as (t' & acc' & Hin & Hget & Hacc).
      exists t', acc'. auto.
Qed.

Lemma fetch_accounts_none env tokens :
  fetch_accounts env tokens = None <->
  exists t, In t tokens /\ accountsGet env t = None.
Proof.
  induction tokens as [|t rest IH]; simpl.
  - split; [discriminate | intros (t & [] & _)].
  - destruct (accountsGet env t) as [accounts|] eqn:Ht.
    + destruct (fetch_accounts env rest) as [more|].
      * split; [discriminate|]. intros (t' & [<-|Hin] & Hn); [congruence|].
        destruct IH as [_ IH]. discriminate IH. exists t'. auto.
      * split; [|reflexivity]. intros _.
        destruct IH as [IH _]. destruct (IH eq_refl) as (t' & Hin & Hn).
        exists t'. auto.
    + split; [|reflexivity]. intros _. exists t. auto.
Qed.

(** X14: every account the route returns was fetched with the access token
    of a [plaid_items] row of the authenticated user; and the route is all
    or nothing: it answers 500, with no partial list, as soon as the call
    fails for one of the user's items. *)
Theorem accounts_come_from_own_items env d authorization user :
  authenticateToken env authorization = Next user ->
  (forall accounts,
     get_accounts env d false authorization = mkResponse 200 (AccountsBody accounts) ->
     forall a, In a accounts ->
       exists row fetched,
         In row (plaid_items d) /\ item_user_id row = userId user /\
         accountsGet env (access_token row) = Some fetched /\ In a fetched) /\
  ((exists row, In row (plaid_items d) /\ item_user_id row = userId user /\
                accountsGet env (access_token row) = None) ->
   get_accounts env d false authorization = reject 500 "Failed to fetch accounts").
Proof.
  intros Hauth. unfold get_accounts. rewrite Hauth. simpl. unfold accounts_handler.
  split.
  - intros accounts H a Ha.
    destruct (fetch_accounts env _) as [fetched|] eqn:Hf; [|discriminate].
    inversion H; subst accounts; clear H.
    apply filter_In in Ha as [Ha _].
    destruct (fetch_accounts_some env _ fetched Hf a Ha) as (t & accs & Hin & Hget & Hacc).
    apply in_map_iff in Hin as (row & <- & Hrow).
    apply filter_In in Hrow as [Hrow Hu]. apply Nat.eqb_eq in Hu.
    exists row, accs. auto.
  - intros (row & Hrow & Hu & Hnone).
    assert (Hf : fetch_accounts env
                   (map access_token
                      (filter (fun r => Nat.eqb (item_user_id r) (userId user))
                              (plaid_items d))) = None).
    { apply fetch_accounts_none. exists (access_token row). split; [|exact Hnone].
      apply in_map. apply filter_In. split; [exact Hrow|]. apply Nat.eqb_eq. exact Hu. }
    rewrite Hf. reflexivity.
Qed.

Lemma accounts_come_from_own_items_witness :
  exists row fetched,
    In row (plaid_items linked_db) /\ item_user_id row = 1%nat /\
    accountsGet sample_env (access_token row) = Some fetched /\
    In (mkAccount "acc-3" "Retirement" (Some "401k")) fetched.
Proof.
  exact (proj1 (accounts_come_from_own_items sample_env linked_db (Some "Bearer good")
                  (mkPayload 1 "a@x.com") eq_refl)
           _ eq_refl (mkAccount "acc-3" "Retirement" (Some "401k"))
           (or_intror (or_introl eq_refl))).
Defined.

Lemma fetch_accounts_app env ts ts' :
  fetch_accounts env (ts ++ ts')
  = match fetch_accounts env ts, fetch_accounts env ts' with
    | Some l, Some l' => Some (l ++ l')%list
    | _, _ => None
    end.
Proof.
  induction ts as [|t ts IH]; simpl.
  - destruct (fetch_accounts env ts'); reflexivity.
  - destruct (accountsGet env t) as [accounts|]; [|reflexivity].
    rewrite IH. destruct (fetch_accounts env ts) as [l|]; [|reflexivity].
    destruct (fetch_accounts env ts') as [l'|]; [|reflexivity].
    rewrite app_assoc. reflexivity.
Qed.

Lemma user_tokens_get_accounts env d q user :
  accounts_handler env d q user
  = if q then reject 500 "Failed to fetch accounts"
    else match fetch_accounts env (user_tokens d (userId user)) with
         | None => reject 500 "Failed to fetch accounts"
         | Some all =>
             mkResponse 200
               (AccountsBody
                  (filter (fun a => Js.includes investment_subtypes (subtype a)) all))
         end.
Proof. reflexivity. Qed.

(** X15: linking an item changes nothing but [plaid_items], to which it
    appends one row for the authenticated user with the access token Plaid
    returned; any failure leaves the database as it was.  Afterwards the
    user's accounts are those served before followed by the investment
    accounts of the new item, and other users' token lists are unchanged. *)
Theorem exchange_links_one_item env sv d q authorization public_token d' answer :
  post_exchange_public_token env sv d q authorization public_token = (d', answer) ->
  (forall r, answer = Failed r -> d' = d) /\
  (answer = Json true ->
   exists user access item,
     authenticateToken env authorization = Next user /\
     itemPublicTokenExchange sv public_token = Some (access, item) /\
     users d' = users d /\ invitation_codes d' = invitation_codes d /\
     plaid_items d' = (plaid_items d ++ [mkPlaidItem (userId user) access item])%list /\
     user_tokens d' (userId user) = (user_tokens d (userId user) ++ [access])%list /\
     (forall other, other <> userId user -> user_tokens d' other = user_tokens d other) /\
     (forall before fresh,
        get_accounts env d false authorization
          = mkResponse 200 (AccountsBody before) ->
        accountsGet env access = Some fresh ->
        get_accounts env d' false authorization
        = mkResponse 200
            (AccountsBody
               (before ++
                filter (fun a => Js.includes investment_subtypes (subtype a)) fresh)%list))).
Proof.
  unfold post_exchange_public_token.
  destruct (authenticateToken env authorization) as [r0|user] eqn:Hauth.
  { intros H; inversion H; subst. split; [reflexivity | discriminate]. }
  unfold exchange_handler.
  destruct (itemPublicTokenExchange sv public_token) as [[access item]|] eqn:Hx.
  2:{ intros H; inversion H; subst. split; [reflexivity | discriminate]. }
  destruct q.
  { intros H; inversion H; subst. split; [reflexivity | discriminate]. }
  unfold insert_plaid_item. simpl.
  destruct (existsb _ (users d)).
  2:{ intros H; inversion H; subst. split; [reflexivity | discriminate]. }
  intros H; inversion H; subst; clear H. split; [discriminate|]. intros _.
  exists user, access, item.
  assert (Hmine : user_tokens
                    (mkDb (users d) (invitation_codes d)
                       (plaid_items d ++ [mkPlaidItem (userId user) access item])%list
                       (users_id_seq d) (invitation_codes_id_seq d)) (userId user)
                  = (user_tokens d (userId user) ++ [access])%list).
  { unfold user_tokens. simpl. rewrite filter_app, map_app. simpl.
    rewrite Nat.eqb_refl. reflexivity. }
  repeat split; auto.
  - intros other Hother. unfold user_tokens. simpl.
    rewrite filter_app, map_app. simpl.
    destruct (Nat.eqb_spec (userId user) other) as [He|_]; [congruence|].
    simpl. apply app_nil_r.
  - intros before fresh Hbefore Hfresh. unfold get_accounts in *.
    rewrite Hauth in *. unfold guarded in *.
    rewrite user_tokens_get_accounts in Hbefore |- *.
    rewrite Hmine, fetch_accounts_app.
    destruct (fetch_accounts env (user_tokens d (userId user))) as [l|];
      [|discriminate Hbefore].
    inversion Hbefore; subst before. simpl. rewrite Hfresh.
    rewrite app_nil_r, filter_app. reflexivity.
Qed.

Lemma exchange_links_one_item_witness :
  exists user access item,
    authenticateToken sample_env (Some "Bearer good") = Next user /\
    itemPublicTokenExchange sample_services (Some "1") = Some (access, item) /\
    users (fst (post_exchange_public_token sample_env sample_services
                  (committed sample_db "a@x.com" "$2b$12$secret1" 1 (2 * day))
                  false (Some "Bearer good") (Some "1")))
    = users (committed sample_db "a@x.com" "$2b$12$secret1" 1 (2 * day)) /\
    user_tokens (fst (post_exchange_public_token sample_env sample_services
                        (committed sample_db "a@x.com" "$2b$12$secret1" 1 (2 * day))
                        false (Some "Bearer good") (Some "1"))) (userId user)
    = ([] ++ [access])%list.
Proof.
  destruct (proj2 (exchange_links_one_item sample_env sample_services
                     (committed sample_db "a@x.com" "$2b$12$secret1" 1 (2 * day))
                     false (Some "Bearer good") (Some "1") _ _ eq_refl) eq_refl)
    as (user & access & item & Ha & Hx & Hu & _ & _ & Ht & _).
  exists user, access, item. auto.
Defined.

(** ** GET /api/liabilities *)

Lemma fetch_liabilities_spec sv tokens :
  (fetch_liabilities sv tokens = None <->
   exists t, In t tokens /\ liabilitiesGet sv t = None) /\
  (forall found, fetch_liabilities sv tokens = Some found ->
     found = flat_map (fun t => match liabilitiesGet sv t with
                                | Some (Some l) => [l]
                                | _ => []
                                end) tokens).
Proof.
  induction tokens as [|t rest [IHn IHs]]; simpl.
  - split; [split; [discriminate | intros (t & [] & _)]|].
    intros found H. inversion H. reflexivity.
  - destruct (liabilitiesGet sv t) as [found0|] eqn:Ht.
    + destruct (fetch_liabilities sv rest) as [more|].
      * split.
        -- split; [discriminate|]. intros (t' & [<-|Hin] & Hn); [congruence|].
           destruct IHn as [_ IHn]. discriminate IHn. exists t'. auto.
        -- intros found H. inversion H; subst. rewrite <- (IHs more eq_refl).
           destruct found0; reflexivity.
      * split; [|discriminate]. split; [|reflexivity]. intros _.
        destruct IHn as [IHn _]. destruct (IHn eq_refl) as (t' & Hin & Hn).
        exists t'. auto.
    + split; [|discriminate]. split; [|reflexivity]. intros _. exists t. auto.
Qed.

(** X16: the liabilities route answers the liabilities of the user's linked
    items in the order of [plaid_items], skipping the items that report
    none, so at most one entry per item; it answers 500 when the call fails
    for any of the items. *)
Theorem liabilities_one_entry_per_item env sv d authorization user :
  authenticateToken env authorization = Next user ->
  (forall found,
     get_liabilities env sv d false authorization = Json found ->
     found = flat_map (fun t => match liabilitiesGet sv t with
                                | Some (Some l) => [l]
                                | _ => []
                                end) (user_tokens d (userId user)) /\
     (List.length found <= List.length (user_tokens d (userId user)))%nat) /\
  ((exists t, In t (user_tokens d (userId user)) /\ liabilitiesGet sv t = None) ->
   get_liabilities env sv d false authorization
   = Failed (reject 500 "Failed to fetch liabilities")).
Proof.
  intros Hauth. unfold get_liabilities. rewrite Hauth. unfold liabilities_handler.
  destruct (fetch_liabilities_spec sv (user_tokens d (userId user))) as [Hn Hs].
  split.
  - intros found H.
    destruct (fetch_liabilities sv (user_tokens d (userId user))) as [l|];
      [|discriminate].
    inversion H; subst l. rewrite (Hs found eq_refl). split; [reflexivity|].
    clear. induction (user_tokens d (userId user)) as [|t ts IH]; simpl; [lia|].
    rewrite length_app. destruct (liabilitiesGet sv t) as [[l|]|]; simpl; lia.
  - intros Hex. apply Hn in Hex. rewrite Hex. reflexivity.
Qed.

Lemma liabilities_one_entry_per_item_witness :
  get_liabilities sample_env sample_services linked_db false (Some "Bearer good")
  = Json [mkLiabilities ["acc-9"] [] []] /\
  ([mkLiabilities ["acc-9"] [] []]
   = flat_map (fun t => match liabilitiesGet sample_services t with
                        | Some (Some l) => [l]
                        | _ => []
                        end) (user_tokens linked_db 1)).
Proof.
  split; [reflexivity|].
  exact (proj1 (proj1 (liabilities_one_entry_per_item sample_env sample_services linked_db
                         (Some "Bearer good") (mkPayload 1 "a@x.com") eq_refl)
                  _ eq_refl)).
Defined.

(** ** Invariants of the reachable states *)

Lemma register_attempt_sequences env d now fault e pw inv :
  (users_id_seq d <= users_id_seq (fst (register_attempt env d now fault e pw inv)))%nat /\
  invitation_codes_id_seq (fst (register_attempt env d now fault e pw inv))
  = invitation_codes_id_seq d.
Proof.
  unfold register_attempt, on_client, register_try.
  destruct (bcrypt_hash env pw 12) as [h|]; [|simpl; split; [lia | reflexivity]].
  unfold register_transaction, try_catch, bind, statement, strikes,
    Client.BEGIN, Client.COMMIT, Client.ROLLBACK, Client.insert_user,
    Client.update_invitation, ret, throw.
  destruct fault as [[]|]; cbn; try (split; [lia | reflexivity]);
    destruct (Pg.email_taken d e); cbn;
    try destruct (jwt_sign env (mkPayload (users_id_seq d) e) "7d"); cbn;
    split; try lia; reflexivity.
Qed.

Lemma post_admin_invitations_cases env d now db_now q key b :
  (same_rows d (fst (post_admin_invitations env d now db_now q key b)) /\
   users_id_seq (fst (post_admin_invitations env d now db_now q key b)) = users_id_seq d /\
   (invitation_codes_id_seq d
    <= invitation_codes_id_seq (fst (post_admin_invitations env d now db_now q key b)))%nat) \/
  (exists row,
     Pg.code_taken d (code row) = false /\ used row = false /\
     id row = invitation_codes_id_seq d /\
     fst (post_admin_invitations env d now db_now q key b)
     = mkDb (users d) (invitation_codes d ++ [row])%list (plaid_items d)
            (users_id_seq d) (S (invitation_codes_id_seq d))).
Proof.
  destruct (post_admin_invitations_effect env d now db_now q key b)
    as [(Hsame & Hu & Hi & _) | (c & e & x & sc & se & _ & _ & _ & _ & _ & _ & _ & Ht & ->)].
  - left. auto.
  - right. exists (mkInvitation (invitation_codes_id_seq d) sc se false None db_now None
                     (Some x)).
    simpl. auto.
Qed.

Lemma mark_used_id uid target now i : id (Pg.mark_used uid target now i) = id i.
Proof. unfold Pg.mark_used. destruct (Nat.eqb (id i) target); reflexivity. Qed.

Lemma nodup_map_eq {A B} (f : A -> B) l x y :
  NoDup (map f l) -> In x l -> In y l -> f x = f y -> x = y.
Proof.
  induction l as [|z l IH]; simpl; [contradiction|].
  intros Hnd Hx Hy Hf. inversion Hnd as [|? ? Hz Hl]; subst.
  destruct Hx as [->|Hx], Hy as [->|Hy]; auto.
  - exfalso. apply Hz. rewrite Hf. apply in_map. exact Hy.
  - exfalso. apply Hz. rewrite <- Hf. apply in_map. exact Hx.
Qed.

Lemma email_free_notin d e :
  Pg.email_taken d e = false -> ~ In e (map user_email (users d)).
Proof.
  unfold Pg.email_taken. intros Hf Hin. apply in_map_iff in Hin as (u & Hu & Hin).
  assert (Ht : existsb (fun u => String.eqb (user_email u) e) (users d) = true).
  { apply existsb_exists. exists u. split; [exact Hin|]. apply String.eqb_eq. exact Hu. }
  congruence.
Qed.

Lemma code_free_notin d c :
  Pg.code_taken d c = false -> ~ In c (map code (invitation_codes d)).
Proof.
  unfold Pg.code_taken. intros Hf Hin. apply in_map_iff in Hin as (i & Hi & Hin).
  assert (Ht : existsb (fun i => String.eqb (code i) c) (invitation_codes d) = true).
  { apply existsb_exists. exists i. split; [exact Hin|]. apply String.eqb_eq. exact Hi. }
  congruence.
Qed.

Lemma nodup_snoc {A} (l : list A) x : NoDup l -> ~ In x l -> NoDup (l ++ [x]).
Proof.
  intros Hl Hx. apply NoDup_app; [exact Hl | constructor; [intros [] | constructor] |].
  intros y Hy [<-|[]]. contradiction.
Qed.

Lemma below_notin {A} (f : A -> nat) l n :
  Forall (fun x => (f x < n)%nat) l -> ~ In n (map f l).
Proof.
  intros Hall Hin. apply in_map_iff in Hin as (x & Hx & Hin).
  rewrite Forall_forall in Hall. specialize (Hall x Hin). lia.
Qed.

Lemma in_set_nth {A} n (x y : A) l : In y (set_nth n x l) -> y = x \/ In y l.
Proof.
  revert n. induction l as [|z l IH]; intros [|n]; simpl; auto.
  - intros [<-|H]; auto.
  - intros [<-|H]; auto. destruct (IH n H); auto.
Qed.

(** Rows stay the same. *)
Lemma sound_kept d d' fl :
  same_rows d d' ->
  (users_id_seq d <= users_id_seq d')%nat ->
  (invitation_codes_id_seq d <= invitation_codes_id_seq d')%nat ->
  sound (mkWorld d fl) -> sound (mkWorld d' fl).
Proof.
  intros (Hu & Hi & _) Hus His ((Hc & He & Hid & Huid & Hib & Hub) & Hr & Hinv & Hg).
  unfold sound, keys_ok, redeemed_by_owner, invitation_only, flights_grounded in *.
  simpl in *. rewrite Hu, Hi. repeat split; auto.
  - eapply Forall_impl; [|exact Hib]. simpl. intros. lia.
  - eapply Forall_impl; [|exact Hub]. simpl. intros. lia.
Qed.

(** A request moves on, holding a row of the table if it passed the checks. *)
Lemma sound_set_flight d fl n f :
  (forall e inv, phase f = Validated e inv ->
     exists i, In i (invitation_codes d) /\ id i = id inv /\ email i = e) ->
  sound (mkWorld d fl) -> sound (mkWorld d (set_nth n f fl)).
Proof.
  intros Hf (Hk & Hr & Hinv & Hg). unfold sound, flights_grounded in *. simpl in *.
  split; [exact Hk|]. split; [exact Hr|]. split; [exact Hinv|].
  intros f' e inv Hin Hp. apply in_set_nth in Hin as [->|Hin]; eauto.
Qed.

(** An invitation is appended. *)
Lemma sound_created d fl row :
  Pg.code_taken d (code row) = false -> used row = false ->
  id row = invitation_codes_id_seq d ->
  sound (mkWorld d fl) ->
  sound (mkWorld (mkDb (users d) (invitation_codes d ++ [row])%list (plaid_items d)
                       (users_id_seq d) (S (invitation_codes_id_seq d))) fl).
Proof.
  intros Ht Hu Hid ((Hc & He & Hids & Huid & Hib & Hub) & Hr & Hinv & Hg).
  unfold sound, keys_ok, redeemed_by_owner, invitation_only, flights_grounded in *.
  simpl in *. repeat split; auto.
  - rewrite map_app. simpl. apply nodup_snoc; [exact Hc | apply code_free_notin, Ht].
  - rewrite map_app. simpl. apply nodup_snoc; [exact Hids|].
    rewrite Hid. apply below_notin. exact Hib.
  - apply Forall_app. split.
    + eapply Forall_impl; [|exact Hib]. simpl. intros. lia.
    + constructor; [lia | constructor].
  - intros i Hin Hused. apply in_app_or in Hin as [Hin|[<-|[]]]; [auto | congruence].
  - intros u Hin. destruct (Hinv u Hin) as (i & Hi & Hrest).
    exists i. split; [apply in_or_app; auto | exact Hrest].
  - intros f e inv Hin Hp. destruct (Hg f e inv Hin Hp) as (i & Hi & Hrest).
    exists i. split; [apply in_or_app; auto | exact Hrest].
Qed.

(** A registration commits for a request grounded in the table. *)
Lemma sound_committed d fl e h inv now :
  Pg.email_taken d e = false ->
  (exists i, In i (invitation_codes d) /\ id i = id inv /\ email i = e) ->
  sound (mkWorld d fl) ->
  sound (mkWorld (committed d e h (id inv) now) fl).
Proof.
  intros Ht (i0 & Hi0 & Hid0 & He0)
         ((Hc & He & Hids & Huid & Hib & Hub) & Hr & Hinv & Hg).
  assert (Hsame : forall i, In i (invitation_codes d) -> id i = id inv -> i = i0).
  { intros i Hi Hid. apply (nodup_map_eq id (invitation_codes d)); auto. congruence. }
  unfold sound, keys_ok, redeemed_by_owner, invitation_only, flights_grounded in *.
  unfold committed. simpl in *. repeat split.
  - rewrite map_map. erewrite map_ext; [exact Hc|]. intros. apply mark_used_code.
  - rewrite map_app. simpl. apply nodup_snoc; [exact He | apply email_free_notin, Ht].
  - rewrite map_map. erewrite map_ext; [exact Hids|]. intros. apply mark_used_id.
  - rewrite map_app. simpl. apply nodup_snoc; [exact Huid|].
    apply below_notin. exact Hub.
  - apply Forall_map. eapply Forall_impl; [|exact Hib]. simpl.
    intros a Ha. rewrite mark_used_id. exact Ha.
  - apply Forall_app. split.
    + eapply Forall_impl; [|exact Hub]. simpl. intros. lia.
    + constructor; [simpl; lia | constructor].
  - intros i' Hin Hused. apply in_map_iff in Hin as (i & <- & Hin).
    unfold Pg.mark_used in *. destruct (Nat.eqb_spec (id i) (id inv)) as [Heq|Hne].
    + exists (mkUser (users_id_seq d) e h now). simpl.
      split; [apply in_or_app; right; left; reflexivity|].
      split; [reflexivity|]. rewrite (Hsame i Hin Heq). symmetry. exact He0.
    + destruct (Hr i Hin Hused) as (u & Hu & Hrest).
      exists u. split; [apply in_or_app; auto | exact Hrest].
  - intros u Hin. apply in_app_or in Hin as [Hin|[<-|[]]].
    + destruct (Hinv u Hin) as (i & Hi & Hused & Hby & Hem).
      exists (Pg.mark_used (users_id_seq d) (id inv) now i).
      split; [apply in_map; exact Hi|].
      unfold Pg.mark_used. destruct (Nat.eqb_spec (id i) (id inv)) as [Heq|Hne]; [|auto].
      exfalso. rewrite (Hsame i Hi Heq), He0 in Hem.
      apply (email_free_notin d e Ht). rewrite Hem. apply in_map. exact Hin.
    + exists (Pg.mark_used (users_id_seq d) (id inv) now i0).
      split; [apply in_map; exact Hi0|].
      unfold Pg.mark_used. rewrite Hid0, Nat.eqb_refl. simpl. auto.
  - intros f e' inv' Hin Hp. destruct (Hg f e' inv' Hin Hp) as (i & Hi & Hid & Hem).
    exists (Pg.mark_used (users_id_seq d) (id inv) now i).
    split; [apply in_map; exact Hi|]. rewrite mark_used_id, mark_used_email. auto.
Qed.

Lemma step_sound env w ev : sound w -> sound (step env w ev).
Proof.
  destruct w as [d fl]. intros Hw.
  destruct ev as [b|n now q|n now fault|now db_now q key b|now q key|now q x]; simpl;
    try exact Hw.
  - destruct Hw as (Hk & Hr & Hinv & Hg). unfold sound, flights_grounded in *.
    simpl in *. split; [exact Hk|]. split; [exact Hr|]. split; [exact Hinv|].
    intros f e inv Hin Hp. apply in_app_or in Hin as [Hin|[<-|[]]]; eauto.
    discriminate Hp.
  - destruct (nth_error fl n) as [[b [|e inv|r]]|] eqn:Hn; try exact Hw.
    apply sound_set_flight; [|exact Hw]. simpl. intros e inv Hp.
    apply lookup_step_validated in Hp as (c & _ & _ & _ & Hhd & _ & _ & _ & He).
    destruct (Pg.select_invitation d c) as [|i rest] eqn:Hsel; [discriminate Hhd|].
    simpl in Hhd. injection Hhd as ->.
    apply select_invitation_head in Hsel as [Hin _]. exists inv. auto.
  - destruct (nth_error fl n) as [[b [|e inv|r]]|] eqn:Hn; try exact Hw.
    pose proof (register_attempt_sequences env d now fault e (body_password b) inv)
      as [Hseq Hiseq].
    destruct (register_attempt_outcome env d now fault e (body_password b) inv)
      as [(h & _ & _ & Ht & Hok) | (d1 & Hsame & [Hr|Hr])];
      rewrite ?Hok, ?Hr in *; simpl in Hseq, Hiseq.
    + apply sound_set_flight; [intros e0 inv0 Hp; discriminate Hp|].
      apply sound_committed; [exact Ht | | exact Hw].
      destruct Hw as (_ & _ & _ & Hg). apply (Hg _ e inv (nth_error_In _ _ Hn) eq_refl).
    + apply sound_set_flight; [intros e0 inv0 Hp; discriminate Hp|].
      apply (sound_kept d d1 fl Hsame); [exact Hseq | lia | exact Hw].
    + apply sound_set_flight; [intros e0 inv0 Hp; discriminate Hp|].
      apply (sound_kept d d1 fl Hsame); [exact Hseq | lia | exact Hw].
  - destruct (post_admin_invitations_cases env d now db_now q key b)
      as [(Hsame & Hus & His) | (row & Ht & Hu & Hid & ->)].
    + apply (sound_kept d _ fl Hsame); [lia | exact His | exact Hw].
    + apply sound_created; assumption.
Qed.

Lemma run_sound env evs : forall w, sound w -> sound (run env w evs).
Proof.
  induction evs as [|ev rest IH]; intros w Hw; simpl; [exact Hw|].
  apply IH, step_sound, Hw.
Qed.

Lemma empty_world_sound : sound (mkWorld empty_db []).
Proof.
  unfold sound, keys_ok, redeemed_by_owner, invitation_only, flights_grounded. simpl.
  repeat split; try constructor; intros; contradiction.
Qed.

(** X11: in every state reached from the empty database, whatever the
    requests and their interleaving, invitation codes are pairwise
    distinct, so are the users' e-mails, and every row carries an id of its
    own, below the next value of its sequence. *)
Theorem reachable_keys_are_unique env evs :
  keys_ok (db (run env (mkWorld empty_db []) evs)).
Proof.
  apply (run_sound env evs _ empty_world_sound).
Qed.

(** X12: access is by invitation only.  In every state reached from the
    empty database, each user is the [used_by] of a used invitation bound to
    that user's e-mail, and each used invitation points to an existing user
    with the e-mail it is bound to. *)
Theorem reachable_users_were_invited env evs :
  invitation_only (db (run env (mkWorld empty_db []) evs)) /\
  redeemed_by_owner (db (run env (mkWorld empty_db []) evs)).
Proof.
  destruct (run_sound env evs _ empty_world_sound) as (_ & Hr & Hi & _). auto.
Qed.

(** ** What the routes answer *)

(** X18: verify-invitation predicts the middleware: on the same database,
    clock and code it answers 200 exactly when [validateInvitation] lets
    the request through, 404, 409 and 410 exactly when the middleware
    answers "invalid", "already used" and "expired", and both answer
    "Invitation code required" for an absent or empty code. *)
Theorem verify_invitation_predicts_the_middleware d now v :
  (status (post_verify_invitation d now false v) = 200%nat <->
   exists inv, validateInvitation d now false v = Next inv) /\
  (status (post_verify_invitation d now false v) = 404%nat <->
   validateInvitation d now false v = Respond INVALID) /\
  (status (post_verify_invitation d now false v) = 409%nat <->
   validateInvitation d now false v = Respond ALREADY_USED) /\
  (status (post_verify_invitation d now false v) = 410%nat <->
   validateInvitation d now false v = Respond EXPIRED) /\
  (post_verify_invitation d now false v = reject 400 "Invitation code required" <->
   validateInvitation d now false v = Respond (reject 400 "Invitation code required")).
Proof.
  unfold post_verify_invitation, validateInvitation.
  destruct (Js.truthy_value v) as [c|].
  - destruct (Pg.select_invitation d c) as [|i rest].
    + repeat split; try discriminate; try reflexivity. intros [inv H]. discriminate H.
    + destruct (used i).
      * repeat split; try discriminate; try reflexivity. intros [inv H]. discriminate H.
      * destruct (Pg.past_expiry now i).
        -- repeat split; try discriminate; try reflexivity.
           intros [inv H]. discriminate H.
        -- repeat split; try discriminate; try reflexivity. intros _. exists i. reflexivity.
  - repeat split; try discriminate; try reflexivity. intros [inv H]. discriminate H.
Qed.

(** X17: what a 500 of the registration route means.  When no query or
    statement fails, the password hashes and [jwt.sign] returns for the
    user the request would create, the answer is 201 or 400.  A request
    that passes the invitation checks with a password [bcrypt.hash] rejects
    is answered 500 "Registration failed" before any statement is sent.  A
    request with everything in order whose [jwt.sign] throws is answered
    500 "Registration failed" as well, with the user committed and the
    invitation consumed. *)
Theorem registration_500_means_a_failure env d now db_now b :
  ((exists h, bcrypt_hash env (body_password b) 12 = Some h) ->
   (forall inv,
      validateInvitation d now false (invitationCode b) = Next inv ->
      jwt_sign env (mkPayload (users_id_seq d) (email inv)) "7d" <> None) ->
   status (snd (post_register env d now db_now false None b)) = 201%nat \/
   status (snd (post_register env d now db_now false None b)) = 400%nat) /\
  (forall inv fault,
     validateInvitation d now false (invitationCode b) = Next inv ->
     body_email b = Some (email inv) ->
     bcrypt_hash env (body_password b) 12 = None ->
     post_register env d now db_now false fault b
     = (d, reject 500 "Registration failed")) /\
  (forall inv h,
     validateInvitation d now false (invitationCode b) = Next inv ->
     body_email b = Some (email inv) ->
     bcrypt_hash env (body_password b) 12 = Some h ->
     Pg.email_taken d (email inv) = false ->
     jwt_sign env (mkPayload (users_id_seq d) (email inv)) "7d" = None ->
     post_register env d now db_now false None b
     = (committed d (email inv) h (id inv) db_now,
        reject 500 "Registration failed")).
Proof.
  split; [|split].
  - intros (h & Hh) Hsign.
    destruct (validateInvitation d now false (invitationCode b)) as [r|inv] eqn:Hv.
    + right. unfold post_register. rewrite Hv. simpl. unfold validateInvitation in Hv.
      destruct (Js.truthy_value (invitationCode b)) as [c|];
        [|inversion Hv; reflexivity].
      destruct (Pg.select_invitation d c) as [|i rest]; [inversion Hv; reflexivity|].
      destruct (used i); [inversion Hv; reflexivity|].
      destruct (Pg.past_expiry now i); inversion Hv; reflexivity.
    + destruct (check_email b inv) as [r|e] eqn:Hce.
      * right. unfold post_register, register_handler. rewrite Hv, Hce.
        apply check_email_respond in Hce. subst. reflexivity.
      * apply check_email_next in Hce as [Hbe ->].
        destruct (Pg.email_taken d (email inv)) eqn:Ht.
        -- right. unfold post_register, register_handler. rewrite Hv.
           rewrite (proj2 (check_email_next b inv (email inv)) (conj Hbe eq_refl)).
           destruct (register_attempt_conflict env d db_now None (email inv)
                       (body_password b) inv h Hh eq_refl Ht) as (d1 & _ & Hr).
           rewrite Hr. reflexivity.
        -- left.
           rewrite (post_register_commits env d now db_now false b inv h Hv Hbe Hh Ht).
           simpl. apply (proj1 (registered_status env _ _)).
           specialize (Hsign inv eq_refl).
           destruct (jwt_sign env (mkPayload (users_id_seq d) (email inv)) "7d")
             as [token|]; [exists token; reflexivity | contradiction].
  - intros inv fault Hv Hbe Hh. unfold post_register, register_handler. rewrite Hv.
    assert (Hce : check_email b inv = Next (email inv))
      by (apply check_email_next; auto).
    rewrite Hce. unfold register_attempt, on_client, register_try. rewrite Hh.
    reflexivity.
  - intros inv h Hv Hbe Hh Ht Hs.
    rewrite (post_register_commits env d now db_now false b inv h Hv Hbe Hh Ht).
    unfold registered. rewrite Hs. reflexivity.
Qed.

Lemma registration_500_means_a_failure_witness :
  post_register sample_env sample_db day (2 * day) false None
    (mkRegisterBody (Some "a@x.com") None (Some "ABC123"))
  = (sample_db, reject 500 "Registration failed") /\
  post_register unsigned_env sample_db day (2 * day) false None sample_body
  = (committed sample_db "a@x.com" "$2b$12$secret1" 1 (2 * day),
     reject 500 "Registration failed").
Proof.
  split.
  - exact (proj1 (proj2 (registration_500_means_a_failure sample_env sample_db day (2 * day)
                    (mkRegisterBody (Some "a@x.com") None (Some "ABC123"))))
             sample_invitation None eq_refl eq_refl eq_refl).
  - exact (proj2 (proj2 (registration_500_means_a_failure unsigned_env sample_db day
                    (2 * day) sample_body))
             sample_invitation "$2b$12$secret1" eq_refl eq_refl eq_refl eq_refl eq_refl).
Defined.
